(** * ROSCA forecast engine (rosca_forecast_app_v13.py): model and properties

    The Python source mixes arbitrary-precision integers and binary64
    floats.  Integers are [Z]; floats are [spec_float] values operated on
    with the IEEE-754 operations of [SpecFloat] at precision 53 and
    maximal exponent 1024.  Exceptions are an explicit result type. *)

From Stdlib Require Import ZArith QArith List Bool Lia String SpecFloat Sorted.
Import ListNotations.
Open Scope Z_scope.

(** ** Exceptions *)

Inductive exn : Set :=
| KeyError
| ValueError
| OverflowError
| ZeroDivisionError.

Inductive result (A : Type) : Type :=
| Ok (a : A)
| Raise (e : exn).

Arguments Ok {A} a.
Arguments Raise {A} e.

Definition bind {A B : Type} (r : result A) (k : A -> result B) : result B :=
  match r with
  | Ok a => k a
  | Raise e => Raise e
  end.

Notation "x <- e ;; k" := (bind e (fun x => k))
  (at level 61, e at next level, right associativity).

(** ** Python numbers *)

Module PyNum.

Definition prec : Z := 53.
Definition emax : Z := 1024.

Inductive pynum : Type :=
| PInt (z : Z)
| PFloat (f : spec_float).

(** [float(z)]: the nearest binary64, ties to even; an integer beyond the
    binary64 range raises OverflowError. *)
Definition float_of_int (z : Z) : result spec_float :=
  match binary_normalize prec emax z 0 false with
  | S754_infinity _ => Raise OverflowError
  | f => Ok f
  end.

Definition to_float (x : pynum) : result spec_float :=
  match x with
  | PInt z => float_of_int z
  | PFloat f => Ok f
  end.

(** A binary operator with at least one float operand: both operands are
    taken to binary64 and the IEEE operation is applied. *)
Definition float_binop (op : spec_float -> spec_float -> spec_float)
    (a b : pynum) : result spec_float :=
  fa <- to_float a ;;
  fb <- to_float b ;;
  Ok (op fa fb).

Definition fadd := float_binop (SFadd prec emax).
Definition fsub := float_binop (SFsub prec emax).
Definition fmul := float_binop (SFmul prec emax).

Definition py_add (a b : pynum) : result pynum :=
  match a, b with
  | PInt x, PInt y => Ok (PInt (x + y))
  | _, _ => f <- fadd a b ;; Ok (PFloat f)
  end.

Definition py_sub (a b : pynum) : result pynum :=
  match a, b with
  | PInt x, PInt y => Ok (PInt (x - y))
  | _, _ => f <- fsub a b ;; Ok (PFloat f)
  end.

Definition py_mul (a b : pynum) : result pynum :=
  match a, b with
  | PInt x, PInt y => Ok (PInt (x * y))
  | _, _ => f <- fmul a b ;; Ok (PFloat f)
  end.

(** An integer as an exact (not normalised) binary float, the input of the
    correctly rounded integer quotient. *)
Definition exact_int (z : Z) : spec_float :=
  match z with
  | Z0 => S754_zero false
  | Zpos p => S754_finite false p 0
  | Zneg p => S754_finite true p 0
  end.

Definition is_zero (f : spec_float) : bool :=
  match f with
  | S754_zero _ => true
  | _ => false
  end.

(** [a / b]: true division always yields a float.  On two integers the
    quotient is rounded once from the exact value; otherwise both operands
    are floats first. *)
Definition py_truediv (a b : pynum) : result spec_float :=
  match a, b with
  | PInt x, PInt y =>
      if y =? 0 then Raise ZeroDivisionError
      else match SFdiv prec emax (exact_int x) (exact_int y) with
           | S754_infinity _ => Raise OverflowError
           | f => Ok f
           end
  | _, _ =>
      fa <- to_float a ;;
      fb <- to_float b ;;
      if is_zero fb then Raise ZeroDivisionError
      else Ok (SFdiv prec emax fa fb)
  end.

(** [int(f)]: truncation toward zero. *)
Definition py_int (f : spec_float) : result Z :=
  match f with
  | S754_nan => Raise ValueError
  | S754_infinity _ => Raise OverflowError
  | S754_zero _ => Ok 0
  | S754_finite s m e => Ok (cond_Zopp s (Z.shiftl (Zpos m) e))
  end.

(** Comparison of an integer with a float is exact. *)
Definition compare_int_float (z : Z) (f : spec_float) : option comparison :=
  match f with
  | S754_nan => None
  | S754_infinity s => Some (if s then Gt else Lt)
  | S754_zero _ => Some (z ?= 0)
  | S754_finite s m e =>
      Some (match e with
            | Zneg k => (z * 2 ^ Zpos k) ?= cond_Zopp s (Zpos m)
            | _ => z ?= cond_Zopp s (Zpos m) * 2 ^ e
            end)
  end.

Definition py_compare (a b : pynum) : option comparison :=
  match a, b with
  | PInt x, PInt y => Some (x ?= y)
  | PInt x, PFloat g => compare_int_float x g
  | PFloat f, PInt y => option_map CompOpp (compare_int_float y f)
  | PFloat f, PFloat g => SFcompare f g
  end.

Definition py_le (a b : pynum) : bool :=
  match py_compare a b with
  | Some Lt | Some Eq => true
  | _ => false
  end.

Definition py_lt (a b : pynum) : bool :=
  match py_compare a b with
  | Some Lt => true
  | _ => false
  end.

Definition py_ge (a b : pynum) : bool :=
  match py_compare a b with
  | Some Gt | Some Eq => true
  | _ => false
  end.

Definition py_gt (a b : pynum) : bool :=
  match py_compare a b with
  | Some Gt => true
  | _ => false
  end.

Definition py_abs (a : pynum) : pynum :=
  match a with
  | PInt z => PInt (Z.abs z)
  | PFloat f => PFloat (SFabs f)
  end.

(** [sum(xs)]: left to right from the integer 0. *)
Fixpoint py_sum_from (acc : pynum) (xs : list pynum) : result pynum :=
  match xs with
  | [] => Ok acc
  | x :: xs' => acc' <- py_add acc x ;; py_sum_from acc' xs'
  end.

Definition py_sum (xs : list pynum) : result pynum := py_sum_from (PInt 0) xs.

(** The literal [0.01]. *)
Definition float_0_01 : spec_float := S754_finite false 5764607523034235 (-59).

End PyNum.
Import PyNum.

(** ** Containers and loops *)

(** A dict with integer keys, in insertion order. *)
Definition dict (V : Type) : Type := list (Z * V).

Fixpoint getitem {V : Type} (d : dict V) (k : Z) : result V :=
  match d with
  | [] => Raise KeyError
  | (k', v) :: d' => if k =? k' then Ok v else getitem d' k
  end.

(** [range(lo, hi)] *)
Definition range (lo hi : Z) : list Z :=
  map (fun i => lo + Z.of_nat i) (seq 0 (Z.to_nat (hi - lo))).

(** A [for] loop whose body updates a state and may raise; [continue] is a
    body that returns the state unchanged. *)
Fixpoint for_each {A S : Type} (xs : list A) (body : A -> S -> result S)
    (s : S) : result S :=
  match xs with
  | [] => Ok s
  | x :: xs' => s' <- body x s ;; for_each xs' body s'
  end.

(** ** Data model *)

Inductive fee_collection : Set := Upfront | Monthly.

Record config : Type := {
  total_market : pynum;
  tam_pct : pynum;
  start_pct : pynum;
  monthly_growth : pynum;
  yearly_growth : pynum;
  kibor : pynum;
  spread : pynum;
  default_rate : pynum;
  penalty_pct : pynum;
  fee_method : fee_collection
}.

Record slot_setting : Type := {
  fee : pynum;
  blocked : bool
}.

(** One row of the forecast.  [Deposit_User] is the key "Deposit/User" and
    [Fee_pct] the key "Fee %". *)
Record record : Type := {
  Month : Z;
  Year : Z;
  Duration : Z;
  Slab : Z;
  Slot : Z;
  Users : Z;
  Deposit_User : Z;
  Fee_pct : pynum;
  Fee_Collected : spec_float;
  NII : spec_float;
  Defaults : Z;
  Profit : spec_float
}.

(** The table [pd.DataFrame(data)] built from a list of row dicts: its
    columns are the keys of the rows, so the table of an empty list has no
    column at all. *)
Record DataFrame : Type := {
  columns : list string;
  rows : list record
}.

Definition record_columns : list string :=
  ["Month"; "Year"; "Duration"; "Slab"; "Slot"; "Users"; "Deposit/User";
   "Fee %"; "Fee Collected"; "NII"; "Defaults"; "Profit"]%string.

Definition pd_DataFrame (data : list record) : DataFrame :=
  {| columns := match data with
                | [] => []
                | _ :: _ => record_columns
                end;
     rows := data |}.

(** ** validate_slab_total *)

Definition validate_slab_total (slab_alloc : dict pynum) : result bool :=
  s <- py_sum (map snd slab_alloc) ;;
  d <- py_sub s (PInt 100) ;;
  Ok (py_lt (py_abs d) (PFloat float_0_01)).

(** ** run_forecast *)

Section Forecast.

Variable cfg : config.
Variable durations : list Z.
Variable slab_map : dict (dict pynum).
Variable slot_fees : dict (dict slot_setting).

(** [int((total_market * tam_pct/100) * (start_pct/100))] *)
Definition base_users : result Z :=
  x <- py_mul (total_market cfg) (tam_pct cfg) ;;
  a <- py_truediv x (PInt 100) ;;
  b <- py_truediv (start_pct cfg) (PInt 100) ;;
  py_int (SFmul prec emax a b).

(** [int(active_users * (pct / 100))] *)
Definition users_of (active_users : Z) (pct : pynum) : result Z :=
  q <- py_truediv pct (PInt 100) ;;
  p <- fmul (PInt active_users) (PFloat q) ;;
  py_int p.

(** [deposit * (fee_pct / 100)] *)
Definition fee_of (deposit : Z) (fee_pct : pynum) : result spec_float :=
  q <- py_truediv fee_pct (PInt 100) ;;
  fmul (PInt deposit) (PFloat q).

(** [(kibor + spread) / 100 / 12] *)
Definition monthly_rate : result spec_float :=
  ks <- py_add (kibor cfg) (spread cfg) ;;
  r <- py_truediv ks (PInt 100) ;;
  py_truediv (PFloat r) (PInt 12).

Definition nii_of (deposit users : Z) : result spec_float :=
  r <- monthly_rate ;;
  fmul (PInt (deposit * users)) (PFloat r).

(** [int(users * default_rate / 100)] *)
Definition defaults_of (users : Z) : result Z :=
  x <- py_mul (PInt users) (default_rate cfg) ;;
  q <- py_truediv x (PInt 100) ;;
  py_int q.

(** [1 - penalty_pct/100] *)
Definition penalty_factor : result spec_float :=
  q <- py_truediv (penalty_pct cfg) (PInt 100) ;;
  fsub (PInt 1) (PFloat q).

(** [pre * deposit * (1 - penalty_pct/100)] *)
Definition pre_loss_of (pre deposit : Z) : result spec_float :=
  k <- penalty_factor ;;
  fmul (PInt (pre * deposit)) (PFloat k).

Definition post_loss_of (post deposit : Z) : Z := post * deposit.

(** [fee * users + nii - pre_loss - post_loss] *)
Definition profit_of (fee : spec_float) (users : Z) (nii pre_loss : spec_float)
    (post_loss : Z) : result spec_float :=
  fc <- fmul (PFloat fee) (PInt users) ;;
  x <- fsub (PFloat (SFadd prec emax fc nii)) (PFloat pre_loss) ;;
  fsub (PFloat x) (PInt post_loss).

(** Body of [for slot in range(1, d+1)]. *)
Definition slot_body (m d slab users slot : Z) (forecast : list record)
    : result (list record) :=
  row <- getitem slot_fees d ;;
  s <- getitem row slot ;;
  if blocked s then Ok forecast
  else
    let deposit := slab * d in
    let fee_pct := fee s in
    fee <- fee_of deposit fee_pct ;;
    nii <- nii_of deposit users ;;
    defaults <- defaults_of users ;;
    let pre := defaults / 2 in
    let post := defaults - defaults / 2 in
    pre_loss <- pre_loss_of pre deposit ;;
    let post_loss := post_loss_of post deposit in
    profit <- profit_of fee users nii pre_loss post_loss ;;
    fee_collected <- fmul (PFloat fee) (PInt users) ;;
    Ok (forecast ++ [ {| Month := m;
                         Year := (m - 1) / 12 + 1;
                         Duration := d;
                         Slab := slab;
                         Slot := slot;
                         Users := users;
                         Deposit_User := deposit;
                         Fee_pct := fee_pct;
                         Fee_Collected := fee_collected;
                         NII := nii;
                         Defaults := defaults;
                         Profit := profit |} ]).

(** Body of [for slab, pct in slab_map[d].items()]. *)
Definition slab_body (m d active_users : Z) (item : Z * pynum)
    (forecast : list record) : result (list record) :=
  if py_le (snd item) (PInt 0) then Ok forecast
  else
    users <- users_of active_users (snd item) ;;
    for_each (range 1 (d + 1)) (slot_body m d (fst item) users) forecast.

(** Body of [for d in durations]. *)
Definition duration_body (m active_users d : Z) (forecast : list record)
    : result (list record) :=
  items <- getitem slab_map d ;;
  for_each items (slab_body m d active_users) forecast.

(** [int(active_users * (1 + monthly_growth/100))] *)
Definition grow (active_users : Z) : result Z :=
  g <- py_truediv (monthly_growth cfg) (PInt 100) ;;
  k <- fadd (PInt 1) (PFloat g) ;;
  p <- fmul (PInt active_users) (PFloat k) ;;
  py_int p.

(** [total_market * tam_pct/100] *)
Definition tam_ceiling : result spec_float :=
  x <- py_mul (total_market cfg) (tam_pct cfg) ;;
  py_truediv x (PInt 100).

Record loop_state : Type := {
  forecast : list record;
  active_users : Z;
  tam_used : Z
}.

(** [for m in range(1, months+1)], with its [break]. *)
Fixpoint month_loop (months : list Z) (st : loop_state) : result loop_state :=
  match months with
  | [] => Ok st
  | m :: months' =>
      fc <- for_each durations (duration_body m (active_users st)) (forecast st) ;;
      a <- grow (active_users st) ;;
      let t := tam_used st + a in
      lim <- tam_ceiling ;;
      let st' := {| forecast := fc; active_users := a; tam_used := t |} in
      if py_ge (PInt t) (PFloat lim) then Ok st'
      else month_loop months' st'
  end.

Definition months : Z := 60.

Definition initial_state (b : Z) : loop_state :=
  {| forecast := []; active_users := b; tam_used := b |}.

Definition run_forecast : result DataFrame :=
  b <- base_users ;;
  st <- month_loop (range 1 (months + 1)) (initial_state b) ;;
  Ok (pd_DataFrame (forecast st)).

End Forecast.


(** ** monthly_summary and yearly_summary *)

(** One row of [df.groupby(name)[["Users", "Fee Collected", "NII",
    "Profit"]].sum().reset_index()]. *)
Record summary : Type := {
  key : Z;
  sum_Users : Z;
  sum_Fee_Collected : spec_float;
  sum_NII : spec_float;
  sum_Profit : spec_float
}.

(** The group keys: each distinct key once, in ascending order. *)
Fixpoint insert_key (k : Z) (ks : list Z) : list Z :=
  match ks with
  | [] => [k]
  | k' :: ks' =>
      match k ?= k' with
      | Lt => k :: ks
      | Eq => ks
      | Gt => k' :: insert_key k ks'
      end
  end.

Definition group_keys (col : record -> Z) (data : list record) : list Z :=
  fold_right insert_key [] (map col data).

Definition group_of (col : record -> Z) (k : Z) (data : list record)
    : list record :=
  filter (fun r => col r =? k) data.

Definition sum_int (xs : list Z) : Z := fold_left Z.add xs 0.

(** The dtype of an integer column of the table: int64 when every value
    fits, uint64 when no value is negative and every value fits 64 bits, and
    otherwise object, a column of Python integers. *)
Inductive int_dtype : Set := Int64 | UInt64 | Object.

Definition in_int64 (z : Z) : bool := (- 2 ^ 63 <=? z) && (z <? 2 ^ 63).

Definition in_uint64 (z : Z) : bool := (0 <=? z) && (z <? 2 ^ 64).

Definition column_dtype (xs : list Z) : int_dtype :=
  if forallb in_int64 xs then Int64
  else if forallb in_uint64 xs then UInt64
  else Object.

Definition wrap_int64 (z : Z) : Z := (z + 2 ^ 63) mod 2 ^ 64 - 2 ^ 63.

Definition wrap_uint64 (z : Z) : Z := z mod 2 ^ 64.

(** The sum of a group of an integer column as pandas' groupby sum computes
    it, in row order: the additions of a 64-bit column wrap around, those of
    Python integers are exact. *)
Definition group_sum_int (dt : int_dtype) (xs : list Z) : Z :=
  match dt with
  | Int64 => fold_left (fun acc x => wrap_int64 (acc + x)) xs 0
  | UInt64 => fold_left (fun acc x => wrap_uint64 (acc + x)) xs 0
  | Object => sum_int xs
  end.

Definition is_nan (f : spec_float) : bool :=
  match f with
  | S754_nan => true
  | _ => false
  end.

(** One step of the compensated (Kahan) summation pandas' groupby sum runs
    over a group of a float column, on the running sum and its compensation:
    a NaN entry is skipped, and a compensation that comes out as NaN (after
    an infinity) is reset to 0. *)
Definition kahan_step (st : spec_float * spec_float) (val : spec_float)
    : spec_float * spec_float :=
  if is_nan val then st
  else
    let y := SFsub prec emax val (snd st) in
    let t := SFadd prec emax (fst st) y in
    let c := SFsub prec emax (SFsub prec emax t (fst st)) y in
    (t, if is_nan c then S754_zero false else c).

(** The sum of a group of a float column, in row order from 0.0. *)
Definition group_sum_float (xs : list spec_float) : spec_float :=
  fst (fold_left kahan_step xs (S754_zero false, S754_zero false)).

Definition has_column (df : DataFrame) (name : string) : bool :=
  existsb (String.eqb name) (columns df).

Definition summary_of (col : record -> Z) (data : list record) (k : Z)
    : summary :=
  let g := group_of col k data in
  {| key := k;
     sum_Users := group_sum_int (column_dtype (map Users data)) (map Users g);
     sum_Fee_Collected := group_sum_float (map Fee_Collected g);
     sum_NII := group_sum_float (map NII g);
     sum_Profit := group_sum_float (map Profit g) |}.

(** [groupby] raises KeyError for a key that is not a column, and so does
    the selection of a missing column. *)
Definition groupby_sum (name : string) (col : record -> Z) (df : DataFrame)
    : result (list summary) :=
  if negb (has_column df name) then Raise KeyError
  else if negb (forallb (has_column df)
                  ["Users"; "Fee Collected"; "NII"; "Profit"]%string)
  then Raise KeyError
  else Ok (map (summary_of col (rows df)) (group_keys col (rows df))).

Definition monthly_summary (df : DataFrame) : result (list summary) :=
  groupby_sum "Month" Month df.

Definition yearly_summary (df : DataFrame) : result (list summary) :=
  groupby_sum "Year" Year df.

(** ** Notions used to state the properties *)

(** The float nearest to an integer literal. *)
Definition float_lit (z : Z) : spec_float := binary_normalize prec emax z 0 false.

Definition is_finite (f : spec_float) : bool :=
  match f with
  | S754_zero _ | S754_finite _ _ _ => true
  | _ => false
  end.

Definition finite_num (x : pynum) : bool :=
  match x with
  | PInt _ => true
  | PFloat f => is_finite f
  end.

Definition is_float (x : pynum) : bool :=
  match x with
  | PFloat _ => true
  | PInt _ => false
  end.

(** [floor_of f z]: the integer [z] is the floor of the finite float [f],
    [z <= f < z + 1], written on integers by scaling with the exponent. *)
Definition floor_of (f : spec_float) (z : Z) : Prop :=
  match f with
  | S754_zero _ => z = 0
  | S754_finite s m e =>
      match e with
      | Zneg k =>
          z * 2 ^ Zpos k <= cond_Zopp s (Zpos m) < (z + 1) * 2 ^ Zpos k
      | _ => z = cond_Zopp s (Zpos m) * 2 ^ e
      end
  | _ => False
  end.

Definition nonneg (f : spec_float) : bool :=
  match f with
  | S754_zero _ => true
  | S754_finite s _ _ => negb s
  | S754_infinity s => negb s
  | S754_nan => false
  end.

(** Where a forecast row comes from: the month, duration, slab item and slot
    of the loop iteration that appended it. *)
Record provenance (slab_map : dict (dict pynum))
    (slot_fees : dict (dict slot_setting)) (durations ms : list Z)
    (r : record) : Prop := {
  prov_month : In (Month r) ms;
  prov_year : Year r = (Month r - 1) / 12 + 1;
  prov_duration : In (Duration r) durations;
  prov_slab : exists items pct a,
      getitem slab_map (Duration r) = Ok items /\
      In (Slab r, pct) items /\
      py_le pct (PInt 0) = false /\
      users_of a pct = Ok (Users r);
  prov_slot : In (Slot r) (range 1 (Duration r + 1));
  prov_setting : exists row s,
      getitem slot_fees (Duration r) = Ok row /\
      getitem row (Slot r) = Ok s /\
      blocked s = false /\
      Fee_pct r = fee s;
  prov_deposit : Deposit_User r = Slab r * Duration r
}.

(** The accumulator process of the design: from [active] active users and
    [tam] tracked usage, each month appends the grown active-user value and
    adds it to the tracked usage; the path ends after [n] months or with the
    first month whose tracked usage reaches the ceiling [lim]. *)
Inductive growth_path (cfg : config) (lim : spec_float)
    : nat -> Z -> Z -> list Z -> Prop :=
| path_horizon : forall active tam,
    growth_path cfg lim 0 active tam []
| path_break : forall n active tam a,
    grow cfg active = Ok a ->
    py_ge (PInt (tam + a)) (PFloat lim) = true ->
    growth_path cfg lim (S n) active tam [a]
| path_next : forall n active tam a p,
    grow cfg active = Ok a ->
    py_ge (PInt (tam + a)) (PFloat lim) = false ->
    growth_path cfg lim n a (tam + a) p ->
    growth_path cfg lim (S n) active tam (a :: p).

(** [advances cfg i a t a' t']: from [active_users = a] and [tam_used = t]
    the loop goes through [i] whole iterations without breaking and reaches
    [active_users = a'] and [tam_used = t']. *)
Inductive advances (cfg : config) : nat -> Z -> Z -> Z -> Z -> Prop :=
| advances_O : forall a t,
    advances cfg 0 a t a t
| advances_S : forall i a t a1 lim a' t',
    grow cfg a = Ok a1 ->
    tam_ceiling cfg = Ok lim ->
    py_ge (PInt (t + a1)) (PFloat lim) = false ->
    advances cfg i a1 (t + a1) a' t' ->
    advances cfg (S i) a t a' t'.

(** [month_start cfg i a t]: run_forecast enters iteration number [i] of
    its month loop (counting from 0, so month [i + 1]) with
    [active_users = a] and [tam_used = t]. *)
Definition month_start (cfg : config) (i : nat) (a t : Z) : Prop :=
  exists b, base_users cfg = Ok b /\ advances cfg i b b a t.

(** The scenario of the design's worked example. *)
Definition scenario_config : config :=
  {| total_market := PInt 20000000;
     tam_pct := PInt 10;
     start_pct := PInt 10;
     monthly_growth := PInt 2;
     yearly_growth := PInt 5;
     kibor := PInt 11;
     spread := PInt 5;
     default_rate := PInt 1;
     penalty_pct := PInt 10;
     fee_method := Upfront |}.

Definition scenario_slab_map : dict (dict pynum) := [(3, [(1000, PInt 100)])].

Definition scenario_slot_fees : dict (dict slot_setting) :=
  [(3, [(1, {| fee := PInt 1; blocked := false |});
        (2, {| fee := PInt 1; blocked := false |});
        (3, {| fee := PInt 1; blocked := false |})])].

Definition scenario_forecast : result DataFrame :=
  run_forecast scenario_config [3] scenario_slab_map scenario_slot_fees.

(** The row of a table for a given month, slab and slot. *)
Definition row_at (m slab slot : Z) (df : DataFrame) : option record :=
  find (fun r => (Month r =? m) && (Slab r =? slab) && (Slot r =? slot))
       (rows df).

(** Two configurations that agree on every field the engine reads. *)
Definition same_inputs (c1 c2 : config) : Prop :=
  total_market c1 = total_market c2 /\
  tam_pct c1 = tam_pct c2 /\
  start_pct c1 = start_pct c2 /\
  monthly_growth c1 = monthly_growth c2 /\
  kibor c1 = kibor c2 /\
  spread c1 = spread c2 /\
  default_rate c1 = default_rate c2 /\
  penalty_pct c1 = penalty_pct c2.

Definition scenario_table : DataFrame :=
  Eval vm_compute in
    match scenario_forecast with
    | Ok df => df
    | Raise _ => pd_DataFrame []
    end.

(** A second input, with a zero slab, a blocked slot and a duration whose
    slots are all blocked. *)
Definition mixed_durations : list Z := [3; 4].

Definition mixed_slab_map : dict (dict pynum) :=
  [(3, [(1000, PFloat (float_lit 100)); (2000, PFloat (S754_zero false))]);
   (4, [(1000, PFloat (float_lit 100))])].

Definition mixed_slot_fees : dict (dict slot_setting) :=
  [(3, [(1, {| fee := PFloat (float_lit 1); blocked := false |});
        (2, {| fee := PFloat (float_lit 1); blocked := true |});
        (3, {| fee := PFloat (float_lit 2); blocked := false |})]);
   (4, [(1, {| fee := PFloat (float_lit 1); blocked := true |});
        (2, {| fee := PFloat (float_lit 1); blocked := true |});
        (3, {| fee := PFloat (float_lit 1); blocked := true |});
        (4, {| fee := PFloat (float_lit 1); blocked := true |})])].

Definition mixed_table : DataFrame :=
  Eval vm_compute in
    match run_forecast scenario_config mixed_durations mixed_slab_map
            mixed_slot_fees with
    | Ok df => df
    | Raise _ => pd_DataFrame []
    end.

(** What a grouped sum is to satisfy: one row per distinct key, in ascending
    key order, each measure being the sum of its column over the rows that
    share the key. *)
Definition grouped (col : record -> Z) (data : list record)
    (t : list summary) : Prop :=
  StronglySorted Z.lt (map key t) /\
  (forall k, In k (map key t) <-> exists r, In r data /\ col r = k) /\
  (forall s, In s t ->
     let g := filter (fun r => col r =? key s) data in
     sum_Users s = group_sum_int (column_dtype (map Users data)) (map Users g) /\
     sum_Fee_Collected s = group_sum_float (map Fee_Collected g) /\
     sum_NII s = group_sum_float (map NII g) /\
     sum_Profit s = group_sum_float (map Profit g)).


(** The sign bit of a float is clear, NaN counting as such. *)
Definition sign_clear (f : spec_float) : bool :=
  match f with
  | S754_zero s | S754_infinity s | S754_finite s _ _ => negb s
  | S754_nan => true
  end.

(** A small market: 10 base users, 5% of them on the only slab. *)
Definition tiny_config : config :=
  {| total_market := PInt 1000;
     tam_pct := PInt 10;
     start_pct := PInt 10;
     monthly_growth := PFloat (float_lit 2);
     yearly_growth := PFloat (float_lit 5);
     kibor := PFloat (float_lit 11);
     spread := PFloat (float_lit 5);
     default_rate := PFloat (float_lit 1);
     penalty_pct := PFloat (float_lit 10);
     fee_method := Upfront |}.

Definition tiny_slab_map : dict (dict pynum) :=
  [(3, [(1000, PFloat (float_lit 5))])].

Definition tiny_table : DataFrame :=
  Eval vm_compute in
    match run_forecast tiny_config [3] tiny_slab_map scenario_slot_fees with
    | Ok df => df
    | Raise _ => pd_DataFrame []
    end.

Definition scenario_final_state : loop_state :=
  Eval vm_compute in
    match month_loop scenario_config [3] scenario_slab_map scenario_slot_fees
            (range 1 (months + 1)) (initial_state 200000) with
    | Ok st => st
    | Raise _ => initial_state 0
    end.

(** ** The configuration builders and the application flow

    The Streamlit widgets are inputs: the value a widget returns is given by
    a function of the duration and slab or slot its key names. *)

(** [d[k] = v]: an existing key keeps its place. *)
Fixpoint setitem {V : Type} (d : dict V) (k : Z) (v : V) : dict V :=
  match d with
  | [] => [(k, v)]
  | (k', v') :: d' =>
      if k =? k' then (k, v) :: d' else (k', v') :: setitem d' k v
  end.

Definition slabs : list Z :=
  [1000; 2000; 5000; 10000; 15000; 20000; 25000; 50000].

Section Widgets.

(** The number_input keyed "{d}_{s}_slab". *)
Variable slab_input : Z -> Z -> pynum.
(** The number_input keyed "{d}_{s}_fee". *)
Variable fee_input : Z -> Z -> pynum.
(** The checkbox keyed "{d}_{s}_block". *)
Variable block_input : Z -> Z -> bool.

(** The [slab_alloc] dict filled by [for i, s in enumerate(slabs)]. *)
Definition slab_alloc_of (d : Z) : dict pynum :=
  fold_left (fun slab_alloc s => setitem slab_alloc s (slab_input d s))
            slabs [].

(** Body of [for d in durations] in get_durations_and_slabs; the second
    component collects the durations for which st.warning is shown. *)
Definition slab_step (d : Z) (st : dict (dict pynum) * list Z)
    : result (dict (dict pynum) * list Z) :=
  let slab_alloc := slab_alloc_of d in
  ok <- validate_slab_total slab_alloc ;;
  Ok (setitem (fst st) d slab_alloc,
      if ok then snd st else snd st ++ [d]).

(** get_durations_and_slabs, on the selection the multiselect returns: the
    durations, the slab map, and the durations warned about. *)
Definition get_durations_and_slabs (durations : list Z)
    : result (list Z * dict (dict pynum) * list Z) :=
  st <- for_each durations slab_step ([], []) ;;
  Ok (durations, fst st, snd st).

(** The dict [slot_fees[d]] filled by [for s in range(1, d+1)]. *)
Definition slot_row (d : Z) : dict slot_setting :=
  fold_left (fun row s =>
               setitem row s {| fee := fee_input d s;
                                blocked := block_input d s |})
            (range 1 (d + 1)) [].

Definition get_slot_fees (durations : list Z) : dict (dict slot_setting) :=
  fold_left (fun slot_fees d => setitem slot_fees d (slot_row d))
            durations [].

End Widgets.

(** The application flow after the configuration: the three tables that are
    displayed and exported, or nothing (a warning) without durations. *)
Definition main (cfg : config) (durations : list Z)
    (slab_map : dict (dict pynum)) (slot_fees : dict (dict slot_setting))
    : result (option (DataFrame * list summary * list summary)) :=
  match durations with
  | [] => Ok None
  | _ :: _ =>
      df_forecast <- run_forecast cfg durations slab_map slot_fees ;;
      df_monthly <- monthly_summary df_forecast ;;
      df_yearly <- yearly_summary df_forecast ;;
      Ok (Some (df_forecast, df_monthly, df_yearly))
  end.

(** ** Further notions used to state properties *)

(** How the loop body fills a row in a month it enters with [a] active
    users. *)
Definition row_of (cfg : config) (slab_map : dict (dict pynum))
    (slot_fees : dict (dict slot_setting)) (durations : list Z)
    (m a : Z) (r : record) : Prop :=
  Month r = m /\
  Year r = (m - 1) / 12 + 1 /\
  In (Duration r) durations /\
  (exists items pct,
      getitem slab_map (Duration r) = Ok items /\
      In (Slab r, pct) items /\
      py_gt pct (PInt 0) = true /\
      users_of a pct = Ok (Users r)) /\
  1 <= Slot r <= Duration r /\
  (exists row s,
      getitem slot_fees (Duration r) = Ok row /\
      getitem row (Slot r) = Ok s /\
      blocked s = false /\
      Fee_pct r = fee s) /\
  Deposit_User r = Slab r * Duration r /\
  (exists f pre_loss,
      fee_of (Deposit_User r) (Fee_pct r) = Ok f /\
      fmul (PFloat f) (PInt (Users r)) = Ok (Fee_Collected r) /\
      nii_of cfg (Deposit_User r) (Users r) = Ok (NII r) /\
      defaults_of cfg (Users r) = Ok (Defaults r) /\
      pre_loss_of cfg (Defaults r / 2) (Deposit_User r) = Ok pre_loss /\
      profit_of f (Users r) (NII r) pre_loss
        (post_loss_of (Defaults r - Defaults r / 2) (Deposit_User r))
        = Ok (Profit r)).

(** The maps have the keys the loops look up. *)
Definition keyed (durations : list Z) (slab_map : dict (dict pynum))
    (slot_fees : dict (dict slot_setting)) : Prop :=
  forall d, In d durations ->
    (exists items, getitem slab_map d = Ok items) /\
    (exists row, getitem slot_fees d = Ok row /\
       forall slot, 1 <= slot <= d -> exists s, getitem row slot = Ok s).

(** The exceptions of the arithmetic: int() of NaN, and values out of the
    float range. *)
Definition arithmetic_error (e : exn) : Prop :=
  e = ValueError \/ e = OverflowError.

(** No slab of any duration has a positive percentage. *)
Definition no_positive_slab (durations : list Z)
    (slab_map : dict (dict pynum)) : Prop :=
  forall d items slab pct,
    In d durations ->
    getitem slab_map d = Ok items ->
    In (slab, pct) items ->
    py_le pct (PInt 0) = true.

Definition total_users (data : list record) : Z := sum_int (map Users data).

(** [r] raises only exceptions that satisfy [P]. *)
Definition raises_only {A : Type} (P : exn -> Prop) (r : result A) : Prop :=
  forall e, r = Raise e -> P e.

(** Every slot of every duration is blocked. *)
Definition all_blocked (durations : list Z)
    (slot_fees : dict (dict slot_setting)) : Prop :=
  forall d row slot s,
    In d durations ->
    getitem slot_fees d = Ok row ->
    getitem row slot = Ok s ->
    blocked s = true.

(** A number that is not negative: an integer >= 0, or a float whose sign
    bit is clear. *)
Definition sign_clear_num (x : pynum) : bool :=
  match x with
  | PInt z => 0 <=? z
  | PFloat f => sign_clear f
  end.

(** Widget values used as an example: everything on the first slab, a fee
    of 1 percent, the second slot blocked. *)
Definition example_slab_input (d s : Z) : pynum :=
  if s =? 1000 then PFloat (float_lit 100) else PFloat (S754_zero false).

Definition example_fee_input (d s : Z) : pynum := PFloat (float_lit 1).

Definition example_block_input (d s : Z) : bool := s =? 2.

(** [trunc_of f z]: the integer [z] is the finite float [f] truncated toward
    zero, written on integers by scaling with the exponent: the floor of a
    float that is not negative, the ceiling of a negative one. *)
Definition trunc_of (f : spec_float) (z : Z) : Prop :=
  match f with
  | S754_zero _ => z = 0
  | S754_finite s m e =>
      match e with
      | Zneg k =>
          if s then (z - 1) * 2 ^ Zpos k < - Zpos m <= z * 2 ^ Zpos k
          else z * 2 ^ Zpos k <= Zpos m < (z + 1) * 2 ^ Zpos k
      | _ => z = cond_Zopp s (Zpos m) * 2 ^ e
      end
  | _ => False
  end.


(** The float written with two decimals as [n / 100]. *)
Definition hundredths (n : Z) : spec_float :=
  match py_truediv (PInt n) (PInt 100) with
  | Ok f => f
  | Raise _ => S754_nan
  end.


(** A market of 19 base users that shrinks by 150 percent a month. *)
Definition shrinking_config : config :=
  {| total_market := PInt 1900;
     tam_pct := PInt 10;
     start_pct := PInt 10;
     monthly_growth := PFloat (float_lit (-150));
     yearly_growth := PFloat (float_lit 5);
     kibor := PFloat (float_lit 11);
     spread := PFloat (float_lit 5);
     default_rate := PFloat (float_lit 1);
     penalty_pct := PFloat (float_lit 10);
     fee_method := Upfront |}.

(** The summary table has one row per distinct key of the data, in
    ascending key order. *)
Definition one_row_per_key (col : record -> Z) (data : list record)
    (t : list summary) : Prop :=
  StronglySorted Z.lt (map key t) /\
  (forall k, In k (map key t) <-> exists r, In r data /\ col r = k).

(** The state of the application before the user edits anything: the
    initial values of the widgets of get_config, get_durations_and_slabs and
    get_slot_fees. *)
Definition initial_config : config :=
  {| total_market := PInt 20000000;
     tam_pct := PInt 10;
     start_pct := PInt 10;
     monthly_growth := PFloat (float_lit 2);
     yearly_growth := PFloat (float_lit 5);
     kibor := PFloat (float_lit 11);
     spread := PFloat (float_lit 5);
     default_rate := PFloat (float_lit 1);
     penalty_pct := PFloat (float_lit 10);
     fee_method := Upfront |}.

Definition initial_durations : list Z := [3; 4; 6].

Definition initial_slab_input (d s : Z) : pynum := PFloat (S754_zero false).

Definition initial_fee_input (d s : Z) : pynum := PFloat (float_lit 1).

Definition initial_block_input (d s : Z) : bool := false.

(** * Properties *)

(** ** The result monad and the loops *)

Lemma bind_Ok {A B : Type} (r : result A) (k : A -> result B) (b : B) :
  bind r k = Ok b -> exists a, r = Ok a /\ k a = Ok b.
Proof.
  destruct r as [a|e]; simpl; intros H.
  - exists a; auto.
  - discriminate.
Qed.

Tactic Notation "bind_inv" hyp(H) ident(x) ident(E) :=
  apply bind_Ok in H; destruct H as (x & E & H).

Lemma for_each_invariant {A S : Type} (I : S -> Prop) (xs : list A)
    (body : A -> S -> result S) :
  (forall x s s', In x xs -> I s -> body x s = Ok s' -> I s') ->
  forall s s', I s -> for_each xs body s = Ok s' -> I s'.
Proof.
  induction xs as [|x xs IH]; simpl; intros Hbody s s' Hs H.
  - inversion H; subst; exact Hs.
  - bind_inv H s1 E.
    apply IH with (s := s1); eauto.
Qed.

Lemma in_range (lo hi x : Z) : In x (range lo hi) <-> lo <= x < hi.
Proof.
  unfold range. rewrite in_map_iff. split.
  - intros (i & <- & Hi). apply in_seq in Hi. lia.
  - intros Hx. exists (Z.to_nat (x - lo)). split; [lia|].
    apply in_seq. lia.
Qed.

(** ** Where rows come from *)

Section Provenance.

Variable cfg : config.
Variable durations : list Z.
Variable slab_map : dict (dict pynum).
Variable slot_fees : dict (dict slot_setting).
Variable ms : list Z.

Let prov := provenance slab_map slot_fees durations ms.

Lemma slot_body_provenance m d slab pct items a users slot fc fc' :
  In m ms -> In d durations ->
  getitem slab_map d = Ok items -> In (slab, pct) items ->
  py_le pct (PInt 0) = false -> users_of a pct = Ok users ->
  In slot (range 1 (d + 1)) ->
  Forall prov fc ->
  slot_body cfg slot_fees m d slab users slot fc = Ok fc' ->
  Forall prov fc'.
Proof.
  intros Hm Hd Hitems Hin Hpct Husers Hslot Hfc H.
  unfold slot_body in H.
  bind_inv H row Erow. bind_inv H s Es.
  destruct (blocked s) eqn:Hb.
  - inversion H; subst; exact Hfc.
  - bind_inv H f Ef. bind_inv H nii En. bind_inv H dflt Ed.
    bind_inv H pl Epl. bind_inv H pr Epr. bind_inv H fcol Efc.
    inversion H; subst fc'.
    apply Forall_app; split; [exact Hfc|].
    constructor; [|constructor].
    constructor; simpl; auto.
    + exists items, pct, a; auto.
    + exists row, s; auto.
Qed.

Lemma slab_body_provenance m d items a item fc fc' :
  In m ms -> In d durations ->
  getitem slab_map d = Ok items -> In item items ->
  Forall prov fc ->
  slab_body cfg slot_fees m d a item fc = Ok fc' ->
  Forall prov fc'.
Proof.
  intros Hm Hd Hitems Hin Hfc H.
  unfold slab_body in H. destruct item as [slab pct]; simpl in H.
  destruct (py_le pct (PInt 0)) eqn:Hpct.
  - inversion H; subst; exact Hfc.
  - bind_inv H users Eu.
    revert H. apply for_each_invariant; [|exact Hfc].
    intros slot s s' Hslot Hs Hbody.
    eapply slot_body_provenance; eauto.
Qed.

Lemma duration_body_provenance m a d fc fc' :
  In m ms -> In d durations ->
  Forall prov fc ->
  duration_body cfg slab_map slot_fees m a d fc = Ok fc' ->
  Forall prov fc'.
Proof.
  intros Hm Hd Hfc H.
  unfold duration_body in H. bind_inv H items Ei.
  revert H. apply for_each_invariant; [|exact Hfc].
  intros item s s' Hin Hs Hbody.
  eapply slab_body_provenance; eauto.
Qed.

Lemma month_loop_provenance l st st' :
  incl l ms ->
  Forall prov (forecast st) ->
  month_loop cfg durations slab_map slot_fees l st = Ok st' ->
  Forall prov (forecast st').
Proof.
  revert st. induction l as [|m l IH]; simpl; intros st Hl Hst H.
  - inversion H; subst; exact Hst.
  - bind_inv H fc Efc. bind_inv H a Ea. bind_inv H lim El.
    assert (Hfc : Forall prov fc).
    { revert Efc. apply for_each_invariant; [|exact Hst].
      intros d s s' Hd Hs Hbody.
      eapply duration_body_provenance; eauto. apply Hl; left; reflexivity. }
    destruct (py_ge _ _).
    + inversion H; subst; exact Hfc.
    + apply IH in H; auto.
      intros x Hx; apply Hl; right; exact Hx.
Qed.

End Provenance.

Lemma run_forecast_provenance cfg durations slab_map slot_fees df :
  run_forecast cfg durations slab_map slot_fees = Ok df ->
  Forall (provenance slab_map slot_fees durations (range 1 (months + 1)))
         (rows df).
Proof.
  unfold run_forecast. intros H.
  bind_inv H b Eb. bind_inv H st Est. inversion H; subst df; simpl.
  eapply month_loop_provenance; [apply incl_refl| |exact Est].
  constructor.
Qed.

(** ** Facts on numbers *)

Lemma SFmul_nan_r (x : spec_float) : SFmul prec emax x S754_nan = S754_nan.
Proof. destruct x; reflexivity. Qed.

Lemma users_of_nan (a : Z) : forall u, users_of a (PFloat S754_nan) <> Ok u.
Proof.
  intros u H. unfold users_of in H.
  bind_inv H q Eqv.
  assert (Hq : q = S754_nan).
  { unfold py_truediv in Eqv. bind_inv Eqv fa Ea. bind_inv Eqv fb Eb.
    inversion Ea; subst fa.
    destruct (is_zero fb); [discriminate|].
    inversion Eqv; subst q. reflexivity. }
  subst q. bind_inv H p Ep.
  unfold fmul, float_binop in Ep.
  bind_inv Ep fa Ea. bind_inv Ep fb Eb. inversion Eb; subst fb.
  rewrite SFmul_nan_r in Ep. inversion Ep; subst p. discriminate.
Qed.

Lemma py_gt_zero_of_not_le (pct : pynum) (a u : Z) :
  py_le pct (PInt 0) = false ->
  users_of a pct = Ok u ->
  py_gt pct (PInt 0) = true.
Proof.
  intros Hle Hu. destruct pct as [z|f].
  - unfold py_le, py_gt in *; simpl in *. destruct (z ?= 0); congruence.
  - destruct f as [s|s| |s m e].
    + unfold py_le in Hle; simpl in Hle. discriminate.
    + destruct s; [discriminate Hle | reflexivity].
    + exfalso. eapply users_of_nan; eauto.
    + unfold py_le, py_gt in *; simpl in *.
      destruct e; simpl in *;
        match goal with
        | |- context [CompOpp ?c] => destruct c; simpl in *; congruence
        end.
Qed.

Lemma getitem_In {V : Type} (d : dict V) (k : Z) (v : V) :
  getitem d k = Ok v -> In (k, v) d.
Proof.
  induction d as [|[k' v'] d IH]; simpl; intros H; [discriminate|].
  destruct (Z.eqb_spec k k') as [->|Hne].
  - inversion H; subst; left; reflexivity.
  - right; auto.
Qed.

Lemma NoDup_keys_functional {V : Type} (d : dict V) (k : Z) (v v' : V) :
  NoDup (map fst d) -> In (k, v) d -> In (k, v') d -> v = v'.
Proof.
  induction d as [|[k0 v0] d IH]; simpl; intros Hnd H1 H2; [contradiction|].
  inversion Hnd as [|? ? Hnotin Hnd']; subst.
  destruct H1 as [H1|H1], H2 as [H2|H2].
  - congruence.
  - inversion H1; subst. exfalso; apply Hnotin.
    change k with (fst (k, v')). apply in_map; exact H2.
  - inversion H2; subst. exfalso; apply Hnotin.
    change k with (fst (k, v)). apply in_map; exact H1.
  - auto.
Qed.

(** ** The forecast rows *)

(** C3: run_forecast is total, its month loop being a recursion over the 60
    entries of range(1, 61), each visited at most once; whenever it returns a
    table, every row has its Month between 1 and 60, so that no row with
    Month > 60 exists. *)
Theorem run_forecast_within_horizon :
  forall cfg durations slab_map slot_fees,
    List.length (range 1 (months + 1)) = 60%nat /\
    exists res, run_forecast cfg durations slab_map slot_fees = res /\
      match res with
      | Ok df => Forall (fun r => 1 <= Month r <= 60) (rows df)
      | Raise _ => True
      end.
Proof.
  intros cfg durations slab_map slot_fees. split; [reflexivity|].
  eexists; split; [reflexivity|].
  destruct (run_forecast cfg durations slab_map slot_fees) as [df|e] eqn:E;
    [|exact I].
  apply run_forecast_provenance in E.
  eapply Forall_impl; [|exact E].
  intros r [Hm _ _ _ _ _ _]. apply in_range in Hm. unfold months in Hm. lia.
Qed.

(** C6: every row of the forecast has a slot that slot_fees records as not
    blocked for the row's duration, so no row exists for a blocked slot; and
    a duration all of whose slots are blocked has no row in any month. *)
Theorem run_forecast_slots_unblocked :
  forall cfg durations slab_map slot_fees df,
    run_forecast cfg durations slab_map slot_fees = Ok df ->
    (forall r, In r (rows df) ->
       exists row s,
         getitem slot_fees (Duration r) = Ok row /\
         getitem row (Slot r) = Ok s /\
         blocked s = false) /\
    (forall d row,
       getitem slot_fees d = Ok row ->
       (forall slot s, getitem row slot = Ok s -> blocked s = true) ->
       forall r, In r (rows df) -> Duration r <> d).
Proof.
  intros cfg durations slab_map slot_fees df H.
  apply run_forecast_provenance in H. rewrite Forall_forall in H.
  split.
  - intros r Hr. destruct (H r Hr) as [_ _ _ _ _ (row & s & E1 & E2 & E3 & _) _].
    exists row, s; auto.
  - intros d row Hrow Hall r Hr Hd.
    destruct (H r Hr) as [_ _ _ _ _ (row' & s & E1 & E2 & E3 & _) _].
    rewrite Hd, Hrow in E1. inversion E1; subst row'.
    apply Hall in E2. congruence.
Qed.

(** C7: every row of the forecast has a slab whose allocation percentage for
    the row's duration is strictly greater than 0; a slab whose percentage is
    <= 0 has no row at all for that duration, in any month. *)
Theorem run_forecast_slabs_positive :
  forall cfg durations slab_map slot_fees df,
    run_forecast cfg durations slab_map slot_fees = Ok df ->
    (forall r, In r (rows df) ->
       exists items pct,
         getitem slab_map (Duration r) = Ok items /\
         In (Slab r, pct) items /\
         py_gt pct (PInt 0) = true) /\
    (forall d items slab pct,
       getitem slab_map d = Ok items ->
       NoDup (map fst items) ->
       In (slab, pct) items ->
       py_le pct (PInt 0) = true ->
       forall r, In r (rows df) -> ~ (Duration r = d /\ Slab r = slab)).
Proof.
  intros cfg durations slab_map slot_fees df H.
  apply run_forecast_provenance in H. rewrite Forall_forall in H.
  split.
  - intros r Hr.
    destruct (H r Hr) as [_ _ _ (items & pct & a & E1 & E2 & E3 & E4) _ _ _].
    exists items, pct. repeat split; auto.
    eapply py_gt_zero_of_not_le; eauto.
  - intros d items slab pct Hitems Hnd Hin Hle r Hr [Hd Hs].
    destruct (H r Hr) as [_ _ _ (items' & pct' & a & E1 & E2 & E3 & E4) _ _ _].
    rewrite Hd, Hitems in E1. inversion E1; subst items'.
    rewrite Hs in E2.
    assert (pct = pct') by (eapply NoDup_keys_functional; eauto).
    congruence.
Qed.

(** C8: every row of the forecast satisfies Year = (Month - 1) // 12 + 1,
    with the integer (floor) division. *)
Theorem run_forecast_year_of_month :
  forall cfg durations slab_map slot_fees df,
    run_forecast cfg durations slab_map slot_fees = Ok df ->
    forall r, In r (rows df) -> Year r = (Month r - 1) / 12 + 1.
Proof.
  intros cfg durations slab_map slot_fees df H r Hr.
  apply run_forecast_provenance in H. rewrite Forall_forall in H.
  destruct (H r Hr) as [_ Hy _ _ _ _ _]. exact Hy.
Qed.

(** C9: two configurations that differ only in yearly_growth and fee_method
    give the same result on the same durations, slab_map and slot_fees. *)
Theorem run_forecast_ignores_unused_fields :
  forall c1 c2 durations slab_map slot_fees,
    same_inputs c1 c2 ->
    run_forecast c1 durations slab_map slot_fees =
    run_forecast c2 durations slab_map slot_fees.
Proof.
  intros [tm1 tp1 sp1 mg1 yg1 k1 s1 dr1 pp1 fm1]
         [tm2 tp2 sp2 mg2 yg2 k2 s2 dr2 pp2 fm2] durations slab_map slot_fees
         (H1 & H2 & H3 & H4 & H5 & H6 & H7 & H8).
  simpl in *. subst.
  reflexivity.
Qed.

Lemma run_forecast_slots_unblocked_witness :
  run_forecast scenario_config mixed_durations mixed_slab_map mixed_slot_fees
    = Ok mixed_table /\
  (forall r, In r (rows mixed_table) ->
     exists row s,
       getitem mixed_slot_fees (Duration r) = Ok row /\
       getitem row (Slot r) = Ok s /\
       blocked s = false) /\
  (forall d row,
     getitem mixed_slot_fees d = Ok row ->
     (forall slot s, getitem row slot = Ok s -> blocked s = true) ->
     forall r, In r (rows mixed_table) -> Duration r <> d).
Proof.
  split; [vm_compute; reflexivity|].
  apply (run_forecast_slots_unblocked scenario_config mixed_durations
           mixed_slab_map mixed_slot_fees mixed_table).
  vm_compute; reflexivity.
Defined.

Lemma run_forecast_slabs_positive_witness :
  run_forecast scenario_config mixed_durations mixed_slab_map mixed_slot_fees
    = Ok mixed_table /\
  (forall r, In r (rows mixed_table) ->
     exists items pct,
       getitem mixed_slab_map (Duration r) = Ok items /\
       In (Slab r, pct) items /\
       py_gt pct (PInt 0) = true) /\
  (forall d items slab pct,
     getitem mixed_slab_map d = Ok items ->
     NoDup (map fst items) ->
     In (slab, pct) items ->
     py_le pct (PInt 0) = true ->
     forall r, In r (rows mixed_table) -> ~ (Duration r = d /\ Slab r = slab)).
Proof.
  split; [vm_compute; reflexivity|].
  apply (run_forecast_slabs_positive scenario_config mixed_durations
           mixed_slab_map mixed_slot_fees mixed_table).
  vm_compute; reflexivity.
Defined.

Lemma run_forecast_year_of_month_witness :
  scenario_forecast = Ok scenario_table /\
  forall r, In r (rows scenario_table) -> Year r = (Month r - 1) / 12 + 1.
Proof.
  split; [vm_compute; reflexivity|].
  apply (run_forecast_year_of_month scenario_config [3] scenario_slab_map
           scenario_slot_fees scenario_table).
  vm_compute; reflexivity.
Defined.

Lemma run_forecast_ignores_unused_fields_witness :
  same_inputs scenario_config
    {| total_market := PInt 20000000; tam_pct := PInt 10;
       start_pct := PInt 10; monthly_growth := PInt 2;
       yearly_growth := PInt 40; kibor := PInt 11; spread := PInt 5;
       default_rate := PInt 1; penalty_pct := PInt 10;
       fee_method := Monthly |} /\
  run_forecast scenario_config [3] scenario_slab_map scenario_slot_fees =
  run_forecast
    {| total_market := PInt 20000000; tam_pct := PInt 10;
       start_pct := PInt 10; monthly_growth := PInt 2;
       yearly_growth := PInt 40; kibor := PInt 11; spread := PInt 5;
       default_rate := PInt 1; penalty_pct := PInt 10;
       fee_method := Monthly |}
    [3] scenario_slab_map scenario_slot_fees.
Proof.
  split.
  - unfold same_inputs; simpl; repeat split; reflexivity.
  - apply run_forecast_ignores_unused_fields.
    unfold same_inputs; simpl; repeat split; reflexivity.
Defined.

(** ** The worked scenario *)

(** C1, as stated, fails: in the row of month 1, slab 1000, slot 1, NII is
    not 800000 and Profit is not 1100000. *)
Lemma scenario_row_as_stated_fails :
  ~ exists df r,
      scenario_forecast = Ok df /\
      row_at 1 1000 1 df = Some r /\
      Users r = 200000 /\
      Deposit_User r = 3000 /\
      SFeqb (Fee_Collected r) (float_lit 6000000) = true /\
      SFeqb (NII r) (float_lit 800000) = true /\
      Defaults r = 2000 /\
      pre_loss_of scenario_config (Defaults r / 2) (Deposit_User r)
        = Ok (float_lit 2700000) /\
      post_loss_of (Defaults r - Defaults r / 2) (Deposit_User r) = 3000000 /\
      SFeqb (Profit r) (float_lit 1100000) = true.
Proof.
  intros (df & r & Hdf & Hr & _ & _ & _ & Hnii & _).
  vm_compute in Hdf. inversion Hdf; subst df; clear Hdf.
  vm_compute in Hr. inversion Hr; subst r; clear Hr.
  vm_compute in Hnii. discriminate.
Qed.

(** C1, amended: in the scenario, base_users is 200000 and the row of month
    1, slab 1000, slot 1 has users 200000, deposit 3000, fee collected
    6000000, defaults 2000, pre_loss 2700000, post_loss 3000000; its NII is
    the binary64 value just above 8000000 (8000000.000000001) and its Profit
    is 8300000. *)
Theorem scenario_first_row :
  base_users scenario_config = Ok 200000 /\
  exists df r,
    scenario_forecast = Ok df /\
    row_at 1 1000 1 df = Some r /\
    Users r = 200000 /\
    Deposit_User r = 3000 /\
    Fee_Collected r = float_lit 6000000 /\
    NII r = S754_finite false 8589934592000001 (-30) /\
    float_lit 8000000 = S754_finite false 8589934592000000 (-30) /\
    Defaults r = 2000 /\
    pre_loss_of scenario_config (Defaults r / 2) (Deposit_User r)
      = Ok (float_lit 2700000) /\
    post_loss_of (Defaults r - Defaults r / 2) (Deposit_User r) = 3000000 /\
    Profit r = float_lit 8300000.
Proof.
  split; [vm_compute; reflexivity|].
  exists scenario_table.
  eexists. split; [vm_compute; reflexivity|].
  split; [vm_compute; reflexivity|].
  vm_compute. repeat split; reflexivity.
Qed.

(** ** The summaries *)

Lemma insert_key_In (k x : Z) (ks : list Z) :
  In x (insert_key k ks) <-> x = k \/ In x ks.
Proof.
  induction ks as [|k' ks IH]; simpl.
  - intuition.
  - destruct (Z.compare_spec k k') as [->|Hlt|Hgt]; simpl.
    + intuition.
    + intuition.
    + rewrite IH. intuition.
Qed.

Lemma insert_key_sorted (k : Z) (ks : list Z) :
  StronglySorted Z.lt ks -> StronglySorted Z.lt (insert_key k ks).
Proof.
  induction 1 as [|k' ks Hs IH Hall]; simpl.
  - constructor; constructor.
  - destruct (Z.compare_spec k k') as [->|Hlt|Hgt].
    + constructor; assumption.
    + constructor; [constructor; assumption|].
      constructor; [exact Hlt|].
      eapply Forall_impl; [|exact Hall]. intros; lia.
    + constructor; [exact IH|].
      rewrite Forall_forall in *. intros x Hx.
      apply insert_key_In in Hx. destruct Hx as [->|Hx]; [lia|auto].
Qed.

Lemma group_keys_In (col : record -> Z) (data : list record) (k : Z) :
  In k (group_keys col data) <-> exists r, In r data /\ col r = k.
Proof.
  unfold group_keys. induction data as [|r data IH]; simpl.
  - split; [contradiction | intros (r & [] & _)].
  - rewrite insert_key_In, IH. split.
    + intros [->|(r' & Hr' & E)]; [exists r; auto | exists r'; auto].
    + intros (r' & [<-|Hr'] & E); [left; auto | right; exists r'; auto].
Qed.

Lemma group_keys_sorted (col : record -> Z) (data : list record) :
  StronglySorted Z.lt (group_keys col data).
Proof.
  unfold group_keys. induction data as [|r data IH]; simpl.
  - constructor.
  - apply insert_key_sorted; exact IH.
Qed.

Lemma groupby_sum_grouped (name : string) (col : record -> Z)
    (df : DataFrame) (t : list summary) :
  groupby_sum name col df = Ok t -> grouped col (rows df) t.
Proof.
  unfold groupby_sum.
  destruct (negb (has_column df name)); [discriminate|].
  destruct (negb (forallb _ _)); [discriminate|].
  intros H; inversion H; subst t; clear H.
  assert (Hkeys : map key (map (summary_of col (rows df))
                              (group_keys col (rows df)))
                  = group_keys col (rows df)).
  { rewrite map_map. simpl. apply map_id. }
  unfold grouped. rewrite Hkeys. split; [apply group_keys_sorted|].
  split; [apply group_keys_In|].
  intros s Hs. apply in_map_iff in Hs. destruct Hs as (k & <- & _).
  simpl. unfold group_of. repeat split; reflexivity.
Qed.

(** C4: in the state the application starts in (durations 3, 4 and 6
    selected, every slab widget at its initial 0.0) run_forecast returns the
    table of no record; this table has no Month or Year column, and
    monthly_summary and yearly_summary raise KeyError on it instead of
    returning an empty table, which makes the whole flow fail. *)
Lemma summaries_fail_at_initial_state :
  exists slab_map warned df,
    get_durations_and_slabs initial_slab_input initial_durations
      = Ok (initial_durations, slab_map, warned) /\
    run_forecast initial_config initial_durations slab_map
      (get_slot_fees initial_fee_input initial_block_input initial_durations)
      = Ok df /\
    df = pd_DataFrame [] /\
    monthly_summary df = Raise KeyError /\
    yearly_summary df = Raise KeyError /\
    main initial_config initial_durations slab_map
      (get_slot_fees initial_fee_input initial_block_input initial_durations)
      = Raise KeyError.
Proof.
  eexists. eexists. exists (pd_DataFrame []).
  split; [vm_compute; reflexivity|].
  split; [vm_compute; reflexivity|].
  split; [reflexivity|].
  split; [reflexivity|].
  split; [reflexivity|].
  vm_compute; reflexivity.
Qed.

(** ** validate_slab_total *)


Lemma py_sum_from_floats (xs : list pynum) :
  Forall (fun v => is_float v = true) xs ->
  forall acc, acc = PInt 0 \/ is_float acc = true ->
  exists s, py_sum_from acc xs = Ok s /\ (s = PInt 0 \/ is_float s = true).
Proof.
  induction 1 as [|x xs Hx Hxs IH]; simpl; intros acc Hacc.
  - exists acc; auto.
  - destruct x as [z|f]; [discriminate|].
    destruct Hacc as [->|Hacc].
    + change (py_add (PInt 0) (PFloat f))
        with (Ok (PFloat (SFadd prec emax (S754_zero false) f))).
      simpl. apply IH. right; reflexivity.
    + destruct acc as [z|g]; [discriminate|].
      simpl. apply IH. right; reflexivity.
Qed.


(** ** The accumulators of the month loop *)

Lemma fold_left_add_acc (p : list Z) (x : Z) :
  fold_left Z.add p x = x + fold_left Z.add p 0.
Proof.
  revert x. induction p as [|a p IH]; simpl; intros x.
  - lia.
  - rewrite IH. rewrite (IH a). lia.
Qed.

Lemma sum_int_cons (a : Z) (p : list Z) : sum_int (a :: p) = a + sum_int p.
Proof. unfold sum_int. simpl. apply fold_left_add_acc. Qed.

Lemma last_cons (p : list Z) (a d : Z) : last (a :: p) d = last p a.
Proof.
  revert a d. induction p as [|b q IH]; intros a d; [reflexivity|].
  change (last (a :: b :: q) d) with (last (b :: q) d).
  rewrite (IH b d), (IH b a). reflexivity.
Qed.

Lemma py_int_floor (p : spec_float) (z : Z) :
  py_int p = Ok z -> nonneg p = true -> floor_of p z.
Proof.
  destruct p as [s|s| |s m e]; simpl; intros H Hn; try discriminate.
  - inversion H; reflexivity.
  - destruct s; [discriminate|]. inversion H; subst z; clear H.
    unfold cond_Zopp. destruct e as [|k|k].
    + rewrite Z.shiftl_0_r. lia.
    + rewrite Z.shiftl_mul_pow2 by lia. reflexivity.
    + change (Z.shiftl (Z.pos m) (Z.neg k)) with (Z.shiftr (Z.pos m) (Z.pos k)).
      rewrite Z.shiftr_div_pow2 by lia.
      assert (Hp : 0 < 2 ^ Z.pos k) by (apply Z.pow_pos_nonneg; lia).
      pose proof (Z.mul_div_le (Z.pos m) (2 ^ Z.pos k) Hp).
      pose proof (Z.mul_succ_div_gt (Z.pos m) (2 ^ Z.pos k) Hp).
      lia.
Qed.

Lemma py_int_trunc (p : spec_float) (z : Z) :
  py_int p = Ok z -> trunc_of p z.
Proof.
  destruct p as [s|s| |s m e]; unfold py_int, trunc_of; intros H;
    try discriminate.
  - inversion H; reflexivity.
  - inversion H; subst z; clear H.
    destruct e as [|k|k].
    + rewrite Z.shiftl_0_r. destruct s; unfold cond_Zopp; ring.
    + rewrite Z.shiftl_mul_pow2 by lia.
      destruct s; unfold cond_Zopp; ring.
    + change (Z.shiftl (Z.pos m) (Z.neg k)) with (Z.shiftr (Z.pos m) (Z.pos k)).
      rewrite Z.shiftr_div_pow2 by lia.
      assert (Hp : 0 < 2 ^ Z.pos k) by (apply Z.pow_pos_nonneg; lia).
      pose proof (Z.mul_div_le (Z.pos m) (2 ^ Z.pos k) Hp) as H1.
      pose proof (Z.mul_succ_div_gt (Z.pos m) (2 ^ Z.pos k) Hp) as H2.
      set (P := 2 ^ Z.pos k) in *. set (q := Z.pos m / P) in *.
      destruct s; unfold cond_Zopp.
      * replace ((- q - 1) * P) with (- (P * Z.succ q)) by ring.
        replace (- q * P) with (- (P * q)) by ring.
        lia.
      * replace (q * P) with (P * q) by ring.
        replace ((q + 1) * P) with (P * Z.succ q) by ring.
        lia.
Qed.

Section Accumulators.

Variable cfg : config.
Variable lim : spec_float.
Hypothesis Hlim : tam_ceiling cfg = Ok lim.

Lemma growth_path_deterministic n a t p1 p2 :
  growth_path cfg lim n a t p1 ->
  growth_path cfg lim n a t p2 ->
  p1 = p2.
Proof.
  intros H1. revert p2.
  induction H1 as [a t|n a t a1 Hg Hb|n a t a1 p Hg Hb Hp IH];
    intros p2 H2; inversion H2; subst; try reflexivity; try congruence.
  assert (a1 = a0) by congruence. subst a0.
  f_equal. apply IH. assumption.
Qed.

Lemma month_loop_growth_path durations slab_map slot_fees ms st st' :
  month_loop cfg durations slab_map slot_fees ms st = Ok st' ->
  exists path,
    growth_path cfg lim (List.length ms) (active_users st) (tam_used st) path /\
    active_users st' = last path (active_users st) /\
    tam_used st' = tam_used st + sum_int path.
Proof.
  revert st. induction ms as [|m ms IH]; simpl; intros st H.
  - inversion H; subst st'. exists []. split; [constructor|].
    split; [reflexivity|]. unfold sum_int; simpl; lia.
  - bind_inv H fc Efc. bind_inv H a Ea. bind_inv H lim' El.
    rewrite Hlim in El. inversion El; subst lim'; clear El.
    destruct (py_ge (PInt (tam_used st + a)) (PFloat lim)) eqn:Hb.
    + inversion H; subst st'; simpl. exists [a].
      split; [apply path_break; assumption|].
      split; [reflexivity|]. rewrite sum_int_cons. unfold sum_int; simpl; lia.
    + apply IH in H. simpl in H. destruct H as (p & Hp & Ha & Ht).
      exists (a :: p).
      split; [apply path_next; assumption|].
      split; [rewrite last_cons; exact Ha|].
      rewrite sum_int_cons. lia.
Qed.

End Accumulators.

Lemma month_loop_ceiling cfg durations slab_map slot_fees m ms st st' :
  month_loop cfg durations slab_map slot_fees (m :: ms) st = Ok st' ->
  exists lim, tam_ceiling cfg = Ok lim.
Proof.
  simpl; intros H.
  bind_inv H fc Efc. bind_inv H a Ea. bind_inv H lim El.
  exists lim; exact El.
Qed.

Lemma range_months : range 1 (months + 1) = 1 :: range 2 (months + 1).
Proof. reflexivity. Qed.

(** C2, as stated, fails: the update of active_users is not a floor.  With
    19 base users and a monthly growth of -150 the product is -9.5, whose
    floor is -10, while active_users becomes int(-9.5) = -9, the value the
    loop enters its second month with. *)
Lemma growth_is_not_a_floor :
  exists g k p,
    base_users shrinking_config = Ok 19 /\
    py_truediv (monthly_growth shrinking_config) (PInt 100) = Ok g /\
    fadd (PInt 1) (PFloat g) = Ok k /\
    fmul (PInt 19) (PFloat k) = Ok p /\
    floor_of p (-10) /\
    grow shrinking_config 19 = Ok (-9) /\
    month_start shrinking_config 1 (-9) 10.
Proof.
  eexists. eexists. eexists.
  split; [vm_compute; reflexivity|].
  split; [vm_compute; reflexivity|].
  split; [vm_compute; reflexivity|].
  split; [vm_compute; reflexivity|].
  split; [vm_compute; split; [discriminate | reflexivity]|].
  split; [vm_compute; reflexivity|].
  exists 19. split; [vm_compute; reflexivity|].
  eapply advances_S with (a1 := -9);
    [vm_compute; reflexivity | vm_compute; reflexivity
    | vm_compute; reflexivity | constructor].
Qed.

(** C2, amended: the month loop of run_forecast starts from active_users =
    tam_used = base_users; each month, after the rows, active_users
    becomes int(active_users * (1 + monthly_growth/100)), the product
    truncated toward zero (its floor when it is not negative), tam_used
    grows by this new value, and the loop stops with the first month whose
    tam_used reaches total_market * tam_pct/100, or after 60 months.  So
    tam_used ends as base_users plus the sum of the grown active-user
    values, whatever the durations, slabs and slots the rows are split
    over. *)
Theorem month_loop_tam_used :
  forall cfg durations slab_map slot_fees b st,
    base_users cfg = Ok b ->
    month_loop cfg durations slab_map slot_fees (range 1 (months + 1))
      (initial_state b) = Ok st ->
    exists x lim path,
      py_mul (total_market cfg) (tam_pct cfg) = Ok x /\
      py_truediv x (PInt 100) = Ok lim /\
      growth_path cfg lim 60 b b path /\
      active_users st = last path b /\
      tam_used st = b + sum_int path /\
      (forall a a', grow cfg a = Ok a' ->
         exists g k p,
           py_truediv (monthly_growth cfg) (PInt 100) = Ok g /\
           fadd (PInt 1) (PFloat g) = Ok k /\
           fmul (PInt a) (PFloat k) = Ok p /\
           py_int p = Ok a' /\
           trunc_of p a' /\
           (nonneg p = true -> floor_of p a')) /\
      (forall durations' slab_map' slot_fees' st2,
         month_loop cfg durations' slab_map' slot_fees' (range 1 (months + 1))
           (initial_state b) = Ok st2 ->
         active_users st2 = active_users st /\ tam_used st2 = tam_used st).
Proof.
  intros cfg durations slab_map slot_fees b st Hb H.
  assert (Hl : exists lim, tam_ceiling cfg = Ok lim).
  { rewrite range_months in H. eapply month_loop_ceiling; eauto. }
  destruct Hl as (lim & Hlim).
  destruct (month_loop_growth_path cfg lim Hlim _ _ _ _ _ _ H)
    as (path & Hp & Ha & Ht).
  change (List.length (range 1 (months + 1))) with 60%nat in Hp.
  simpl in Hp, Ha, Ht.
  assert (Hx : exists x, py_mul (total_market cfg) (tam_pct cfg) = Ok x /\
                         py_truediv x (PInt 100) = Ok lim).
  { unfold tam_ceiling in Hlim. bind_inv Hlim x Ex. exists x; auto. }
  destruct Hx as (x & Ex & Exl).
  exists x, lim, path.
  split; [exact Ex|]. split; [exact Exl|]. split; [exact Hp|].
  split; [exact Ha|]. split; [exact Ht|]. split.
  - intros a a' Hg. unfold grow in Hg.
    bind_inv Hg g Eg. bind_inv Hg k Ek. bind_inv Hg p Ep.
    exists g, k, p. repeat split; try assumption.
    + apply py_int_trunc; assumption.
    + apply py_int_floor; assumption.
  - intros durations' slab_map' slot_fees' st2 H2.
    destruct (month_loop_growth_path cfg lim Hlim _ _ _ _ _ _ H2)
      as (path2 & Hp2 & Ha2 & Ht2).
    change (List.length (range 1 (months + 1))) with 60%nat in Hp2.
    simpl in Hp2, Ha2, Ht2.
    assert (path2 = path) by (eapply growth_path_deterministic; eauto).
    subst path2. split; congruence.
Qed.

(** ** Rows that are appended stay *)

Lemma for_each_extends {A B : Type} (xs : list A)
    (body : A -> list B -> result (list B)) :
  (forall x s s', In x xs -> body x s = Ok s' -> incl s s') ->
  forall s s', for_each xs body s = Ok s' -> incl s s'.
Proof.
  induction xs as [|x xs IH]; simpl; intros Hbody s s' H.
  - inversion H; subst; apply incl_refl.
  - bind_inv H s1 E.
    apply incl_tran with s1.
    + eapply Hbody; eauto.
    + eapply IH; eauto.
Qed.

Lemma for_each_visit {A B : Type} (xs : list A)
    (body : A -> list B -> result (list B)) (x : A) :
  (forall y s s', In y xs -> body y s = Ok s' -> incl s s') ->
  In x xs ->
  forall s s', for_each xs body s = Ok s' ->
  exists s1 s2, body x s1 = Ok s2 /\ incl s2 s'.
Proof.
  induction xs as [|y xs IH]; simpl; intros Hbody Hx s s' H; [contradiction|].
  bind_inv H s1 E.
  destruct Hx as [->|Hx].
  - exists s, s1. split; [exact E|].
    eapply for_each_extends; [|exact H]. intros; eauto.
  - eapply IH; eauto.
Qed.

Section Extends.

Variable cfg : config.
Variable durations : list Z.
Variable slab_map : dict (dict pynum).
Variable slot_fees : dict (dict slot_setting).

Lemma slot_body_extends m d slab users slot fc fc' :
  slot_body cfg slot_fees m d slab users slot fc = Ok fc' -> incl fc fc'.
Proof.
  unfold slot_body; intros H.
  bind_inv H row Erow. bind_inv H s Es.
  destruct (blocked s).
  - inversion H; subst; apply incl_refl.
  - bind_inv H f Ef. bind_inv H nii En. bind_inv H dflt Ed.
    bind_inv H pl Epl. bind_inv H pr Epr. bind_inv H fcol Efc.
    inversion H; subst fc'. apply incl_appl, incl_refl.
Qed.

Lemma slab_body_extends m d a item fc fc' :
  slab_body cfg slot_fees m d a item fc = Ok fc' -> incl fc fc'.
Proof.
  unfold slab_body; intros H.
  destruct (py_le (snd item) (PInt 0)).
  - inversion H; subst; apply incl_refl.
  - bind_inv H users Eu.
    eapply for_each_extends; [|exact H].
    intros; eapply slot_body_extends; eauto.
Qed.

Lemma duration_body_extends m a d fc fc' :
  duration_body cfg slab_map slot_fees m a d fc = Ok fc' -> incl fc fc'.
Proof.
  unfold duration_body; intros H. bind_inv H items Ei.
  eapply for_each_extends; [|exact H].
  intros; eapply slab_body_extends; eauto.
Qed.

Lemma month_loop_extends ms st st' :
  month_loop cfg durations slab_map slot_fees ms st = Ok st' ->
  incl (forecast st) (forecast st').
Proof.
  revert st. induction ms as [|m ms IH]; simpl; intros st H.
  - inversion H; subst; apply incl_refl.
  - bind_inv H fc Efc. bind_inv H a Ea. bind_inv H lim El.
    assert (Hfc : incl (forecast st) fc).
    { eapply for_each_extends; [|exact Efc].
      intros; eapply duration_body_extends; eauto. }
    destruct (py_ge _ _).
    + inversion H; subst; exact Hfc.
    + apply IH in H. simpl in H. eapply incl_tran; eauto.
Qed.

(** The rows of an iteration the loop goes through are in the result. *)
Lemma month_loop_visits i :
  forall ms st st' m a t,
    month_loop cfg durations slab_map slot_fees ms st = Ok st' ->
    advances cfg i (active_users st) (tam_used st) a t ->
    nth_error ms i = Some m ->
    exists fc0 fc1,
      for_each durations (duration_body cfg slab_map slot_fees m a) fc0
        = Ok fc1 /\
      incl fc1 (forecast st').
Proof.
  induction i as [|i IH]; intros ms st st' m a t H Hadv Hnth.
  - inversion Hadv; subst.
    destruct ms as [|m0 ms]; [discriminate|].
    simpl in Hnth. inversion Hnth; subst m0. simpl in H.
    bind_inv H fc Efc. bind_inv H a1 Ea. bind_inv H lim El.
    exists (forecast st), fc. split; [exact Efc|].
    destruct (py_ge _ _).
    + inversion H; subst; apply incl_refl.
    + apply month_loop_extends in H. exact H.
  - inversion Hadv as [|? ? ? a1 lim ? ? Hg Hl Hb Hrest]; subst.
    destruct ms as [|m0 ms]; [discriminate|].
    simpl in Hnth. simpl in H.
    bind_inv H fc Efc. bind_inv H a1' Ea. bind_inv H lim' El.
    assert (a1' = a1) by congruence. subst a1'.
    assert (lim' = lim) by congruence. subst lim'.
    rewrite Hb in H.
    eapply IH in H; eauto.
Qed.

End Extends.

Lemma nth_error_range (lo hi : Z) (i : nat) :
  (i < Z.to_nat (hi - lo))%nat ->
  nth_error (range lo hi) i = Some (lo + Z.of_nat i).
Proof.
  intros Hi. unfold range.
  rewrite nth_error_map, nth_error_seq.
  destruct (Nat.ltb_spec i (Z.to_nat (hi - lo))); [reflexivity | lia].
Qed.

(** ** Signs and zeros *)

Lemma binary_round_aux_sign (m e : Z) (l : location) :
  sign_clear (binary_round_aux prec emax false m e l) = true.
Proof.
  unfold binary_round_aux.
  destruct (shr_fexp prec emax m e l) as [mrs' e'].
  destruct (shr_fexp prec emax _ e' loc_Exact) as [mrs'' e''].
  destruct (shr_m mrs''); [reflexivity | | reflexivity].
  destruct (e'' <=? emax - prec); reflexivity.
Qed.

Lemma float_of_int_sign (a : Z) (f : spec_float) :
  0 <= a -> float_of_int a = Ok f -> sign_clear f = true.
Proof.
  intros Ha. unfold float_of_int.
  assert (Hs : sign_clear (binary_normalize prec emax a 0 false) = true).
  { destruct a as [|p|p]; [reflexivity | | lia].
    unfold binary_normalize, binary_round.
    destruct (shl_align p 0 _) as [mz ez].
    apply binary_round_aux_sign. }
  destruct (binary_normalize prec emax a 0 false) as [s|s| |s m e];
    intros H; inversion H; subst; exact Hs.
Qed.

Lemma SFdiv_sign (x y : spec_float) :
  sign_clear x = true -> sign_clear y = true ->
  sign_clear (SFdiv prec emax x y) = true.
Proof.
  destruct x as [[]|[]| |[] mx ex], y as [[]|[]| |[] my ey];
    simpl; intros Hx Hy; try discriminate; try reflexivity.
  destruct (SFdiv_core_binary prec emax (Z.pos mx) ex (Z.pos my) ey)
    as [[mz ez] lz].
  apply binary_round_aux_sign.
Qed.

Lemma SFmul_sign (x y : spec_float) :
  sign_clear x = true -> sign_clear y = true ->
  sign_clear (SFmul prec emax x y) = true.
Proof.
  destruct x as [[]|[]| |[] mx ex], y as [[]|[]| |[] my ey];
    simpl; intros Hx Hy; try discriminate; try reflexivity.
  apply binary_round_aux_sign.
Qed.

Lemma py_gt_zero_sign (pct : pynum) :
  py_gt pct (PInt 0) = true ->
  match pct with
  | PInt z => 0 < z
  | PFloat f => sign_clear f = true
  end.
Proof.
  destruct pct as [z|f];
    unfold py_gt, py_compare, compare_int_float, option_map, cond_Zopp.
  - destruct (Z.compare_spec z 0); try discriminate. intros _; lia.
  - destruct f as [s|s| |s m e]; try discriminate.
    + destruct s; [discriminate | reflexivity].
    + destruct s; [|reflexivity].
      destruct e as [|k|k].
      * destruct (Z.compare_spec 0 (Z.neg m * 2 ^ 0)); simpl;
          try discriminate; intros _; exfalso; lia.
      * assert (Hp : 0 < Z.pos m * 2 ^ Z.pos k).
        { apply Z.mul_pos_pos; [lia | apply Z.pow_pos_nonneg; lia]. }
        change (Z.neg m) with (- Z.pos m). rewrite Z.mul_opp_l.
        destruct (Z.compare_spec 0 (- (Z.pos m * 2 ^ Z.pos k))); simpl;
          try discriminate; intros _; exfalso; lia.
      * destruct (Z.compare_spec (0 * 2 ^ Z.pos k) (Z.neg m)); simpl;
          try discriminate; intros _; exfalso; lia.
Qed.

Lemma truediv_100_sign (pct : pynum) (q : spec_float) :
  py_gt pct (PInt 0) = true ->
  py_truediv pct (PInt 100) = Ok q ->
  sign_clear q = true.
Proof.
  intros Hgt H. apply py_gt_zero_sign in Hgt.
  destruct pct as [z|f].
  - unfold py_truediv in H. simpl (100 =? 0) in H. cbv iota in H.
    assert (Hs : sign_clear (SFdiv prec emax (exact_int z) (exact_int 100))
                 = true).
    { apply SFdiv_sign; [|reflexivity].
      destruct z; try lia; reflexivity. }
    destruct (SFdiv prec emax (exact_int z) (exact_int 100));
      inversion H; subst; exact Hs.
  - unfold py_truediv in H. bind_inv H fa Ea. bind_inv H fb Eb.
    inversion Ea; subst fa.
    assert (Hb : sign_clear fb = true)
      by (eapply float_of_int_sign; [|exact Eb]; lia).
    destruct (is_zero fb); [discriminate|].
    inversion H; subst q. apply SFdiv_sign; assumption.
Qed.

Lemma py_int_below_one (p : spec_float) :
  sign_clear p = true ->
  py_lt (PFloat p) (PInt 1) = true ->
  py_int p = Ok 0.
Proof.
  destruct p as [s|s| |s m e];
    unfold py_lt, py_compare, compare_int_float, option_map, cond_Zopp, py_int;
    intros Hs H; try discriminate.
  - reflexivity.
  - destruct s; discriminate.
  - destruct s; [discriminate|].
    destruct e as [|k|k].
    + destruct (Z.compare_spec 1 (Z.pos m * 2 ^ 0)); simpl in H;
        try discriminate; lia.
    + assert (Hp : 0 < 2 ^ Z.pos k) by (apply Z.pow_pos_nonneg; lia).
      assert (Hq : 1 <= Z.pos m * 2 ^ Z.pos k).
      { change 1 with (1 * 1) at 1. apply Z.mul_le_mono_nonneg; lia. }
      destruct (Z.compare_spec 1 (Z.pos m * 2 ^ Z.pos k)); simpl in H;
        try discriminate; lia.
    + assert (Hp : 0 < 2 ^ Z.pos k) by (apply Z.pow_pos_nonneg; lia).
      change (Z.shiftl (Z.pos m) (Z.neg k)) with (Z.shiftr (Z.pos m) (Z.pos k)).
      rewrite Z.shiftr_div_pow2 by lia.
      destruct (Z.compare_spec (1 * 2 ^ Z.pos k) (Z.pos m)); simpl in H;
        try discriminate.
      rewrite Z.div_small by lia. reflexivity.
Qed.

(** With a non-negative active-user count and a positive percentage, a
    product below 1 makes users 0. *)
Lemma users_of_below_one (a : Z) (pct : pynum) (q p : spec_float) :
  0 <= a ->
  py_gt pct (PInt 0) = true ->
  py_truediv pct (PInt 100) = Ok q ->
  fmul (PInt a) (PFloat q) = Ok p ->
  py_lt (PFloat p) (PInt 1) = true ->
  users_of a pct = Ok 0.
Proof.
  intros Ha Hgt Hq Hp Hlt.
  unfold users_of. rewrite Hq; simpl. rewrite Hp; simpl.
  apply py_int_below_one; [|exact Hlt].
  unfold fmul, float_binop in Hp.
  bind_inv Hp fa Ea. bind_inv Hp fb Eb. inversion Eb; subst fb.
  inversion Hp; subst p.
  apply SFmul_sign.
  - eapply float_of_int_sign; eauto.
  - eapply truediv_100_sign; eauto.
Qed.

Lemma py_gt_not_le (a b : pynum) : py_gt a b = true -> py_le a b = false.
Proof.
  unfold py_gt, py_le. destruct (py_compare a b) as [[]|]; congruence.
Qed.

Lemma float_of_int_0 : float_of_int 0 = Ok (S754_zero false).
Proof. reflexivity. Qed.

Lemma float_of_int_100 :
  float_of_int 100 = Ok (S754_finite false 7036874417766400 (-46)).
Proof. reflexivity. Qed.

Lemma fmul_zero_l (f : spec_float) :
  is_finite f = true ->
  exists z, fmul (PInt 0) (PFloat f) = Ok z /\ is_zero z = true.
Proof.
  intros Hf. unfold fmul, float_binop. simpl to_float.
  rewrite float_of_int_0. simpl.
  destruct f as [s|s| |s m e]; try discriminate; eexists; split; reflexivity.
Qed.

Lemma fmul_zero_r (f : spec_float) :
  is_finite f = true ->
  exists z, fmul (PFloat f) (PInt 0) = Ok z /\ is_zero z = true.
Proof.
  intros Hf. unfold fmul, float_binop. simpl to_float.
  rewrite float_of_int_0. simpl.
  destruct f as [s|s| |s m e]; try discriminate; eexists; split; reflexivity.
Qed.

Lemma defaults_of_zero (cfg : config) :
  finite_num (default_rate cfg) = true -> defaults_of cfg 0 = Ok 0.
Proof.
  intros Hf. unfold defaults_of.
  destruct (default_rate cfg) as [z|f].
  - reflexivity.
  - simpl in Hf. destruct (fmul_zero_l f Hf) as (x & Ex & Hx).
    unfold py_mul. rewrite Ex. cbn [bind].
    destruct x as [s|s| |s m e]; try discriminate.
    unfold py_truediv. cbn [to_float bind]. rewrite float_of_int_100.
    reflexivity.
Qed.

Lemma profit_of_zero (f nii pl : spec_float) :
  is_finite f = true -> is_zero nii = true -> is_zero pl = true ->
  exists z, profit_of f 0 nii pl 0 = Ok z /\ is_zero z = true.
Proof.
  intros Hf Hn Hp. unfold profit_of.
  destruct (fmul_zero_r f Hf) as (fc & Efc & Hfc). rewrite Efc. simpl.
  destruct fc as [s1|s1| |s1 m1 e1]; try discriminate.
  destruct nii as [s2|s2| |s2 m2 e2]; try discriminate.
  destruct pl as [s3|s3| |s3 m3 e3]; try discriminate.
  unfold fsub, float_binop. simpl to_float. rewrite float_of_int_0. simpl.
  destruct s1, s2, s3; eexists; split; reflexivity.
Qed.

(** ** Rows with no user *)

Lemma slot_body_zero_users cfg slot_fees m d slab slot row s f rate k fc :
  getitem slot_fees d = Ok row ->
  getitem row slot = Ok s ->
  blocked s = false ->
  fee_of (slab * d) (fee s) = Ok f -> is_finite f = true ->
  monthly_rate cfg = Ok rate -> is_finite rate = true ->
  penalty_factor cfg = Ok k -> is_finite k = true ->
  finite_num (default_rate cfg) = true ->
  exists r,
    slot_body cfg slot_fees m d slab 0 slot fc = Ok (fc ++ [r]) /\
    Month r = m /\ Duration r = d /\ Slab r = slab /\ Slot r = slot /\
    Users r = 0 /\
    is_zero (Fee_Collected r) = true /\
    is_zero (NII r) = true /\
    Defaults r = 0 /\
    is_zero (Profit r) = true /\
    Deposit_User r = slab * d /\
    Fee_pct r = fee s.
Proof.
  intros Hrow Hs Hb Hfee Hf Hrate Hr Hk Hkf Hdr.
  destruct (fmul_zero_l rate Hr) as (nii & En & Hn).
  destruct (fmul_zero_l k Hkf) as (pl & Epl & Hpl).
  destruct (profit_of_zero f nii pl Hf Hn Hpl) as (pr & Epr & Hpr).
  destruct (fmul_zero_r f Hf) as (fcol & Efc & Hfc).
  unfold slot_body. rewrite Hrow; cbn [bind]. rewrite Hs; cbn [bind].
  rewrite Hb. cbv zeta. rewrite Hfee; cbn [bind].
  unfold nii_of. rewrite Hrate; cbn [bind].
  rewrite Z.mul_0_r, En; cbn [bind].
  rewrite (defaults_of_zero cfg Hdr); cbn [bind].
  change (0 / 2) with 0. change (0 - 0) with 0.
  unfold pre_loss_of, post_loss_of. rewrite Hk; cbn [bind].
  rewrite Z.mul_0_l, Epl; cbn [bind].
  rewrite Epr; cbn [bind]. rewrite Efc; cbn [bind].
  eexists. split; [reflexivity|].
  simpl. repeat split; assumption.
Qed.

(** C10: in a month that run_forecast goes through with a non-negative
    active_users, a slab whose percentage is > 0 while
    active_users * (pct/100) < 1 gets users = 0, and still a row is in the
    forecast for every unblocked slot of the duration, with Users 0, Fee
    Collected 0, NII 0, Defaults 0 and Profit 0, its Deposit/User being
    slab * duration (not zero for a slab that is not zero) and its Fee %
    the slot's fee.  The slot's fee per user, the monthly rate, the penalty
    factor and the default rate are taken to be finite numbers. *)
Theorem zero_user_rows_are_emitted :
  forall cfg durations slab_map slot_fees df i a t d items slab pct q p
         slot row s f rate k,
    run_forecast cfg durations slab_map slot_fees = Ok df ->
    month_start cfg i a t ->
    (i < 60)%nat ->
    0 <= a ->
    In d durations ->
    getitem slab_map d = Ok items ->
    In (slab, pct) items ->
    py_gt pct (PInt 0) = true ->
    py_truediv pct (PInt 100) = Ok q ->
    fmul (PInt a) (PFloat q) = Ok p ->
    py_lt (PFloat p) (PInt 1) = true ->
    1 <= slot <= d ->
    getitem slot_fees d = Ok row ->
    getitem row slot = Ok s ->
    blocked s = false ->
    fee_of (slab * d) (fee s) = Ok f -> is_finite f = true ->
    monthly_rate cfg = Ok rate -> is_finite rate = true ->
    penalty_factor cfg = Ok k -> is_finite k = true ->
    finite_num (default_rate cfg) = true ->
    exists r,
      In r (rows df) /\
      Month r = 1 + Z.of_nat i /\
      Duration r = d /\ Slab r = slab /\ Slot r = slot /\
      Users r = 0 /\
      is_zero (Fee_Collected r) = true /\
      is_zero (NII r) = true /\
      Defaults r = 0 /\
      is_zero (Profit r) = true /\
      Deposit_User r = slab * d /\
      (slab <> 0 -> Deposit_User r <> 0) /\
      Fee_pct r = fee s.
Proof.
  intros cfg durations slab_map slot_fees df i a t d items slab pct q p
         slot row s f rate k
         Hrun (b & Hbase & Hadv) Hi Ha Hd Hitems Hitem Hgt Hq Hp Hlt Hslot
         Hrow Hs Hb Hfee Hf Hrate Hr Hk Hkf Hdr.
  unfold run_forecast in Hrun.
  bind_inv Hrun b' Eb. bind_inv Hrun st Est.
  inversion Hrun; subst df; clear Hrun. simpl rows.
  assert (b' = b) by congruence. subst b'.
  destruct (month_loop_visits cfg durations slab_map slot_fees i
              (range 1 (months + 1)) (initial_state b) st
              (1 + Z.of_nat i) a t Est Hadv)
    as (fc0 & fc1 & Hmonth & Hincl1).
  { apply nth_error_range. change (Z.to_nat (months + 1 - 1)) with 60%nat.
    exact Hi. }
  destruct (for_each_visit durations
              (duration_body cfg slab_map slot_fees (1 + Z.of_nat i) a) d)
    with (s := fc0) (s' := fc1) as (s1 & s2 & Hdur & Hincl2);
    [intros; eapply duration_body_extends; eauto | exact Hd | exact Hmonth |].
  unfold duration_body in Hdur. rewrite Hitems in Hdur. cbn [bind] in Hdur.
  destruct (for_each_visit items
              (slab_body cfg slot_fees (1 + Z.of_nat i) d a) (slab, pct))
    with (s := s1) (s' := s2) as (s3 & s4 & Hslab & Hincl3);
    [intros; eapply slab_body_extends; eauto | exact Hitem | exact Hdur |].
  unfold slab_body in Hslab. cbn [fst snd] in Hslab.
  rewrite (py_gt_not_le _ _ Hgt) in Hslab.
  rewrite (users_of_below_one a pct q p Ha Hgt Hq Hp Hlt) in Hslab.
  cbn [bind] in Hslab.
  destruct (for_each_visit (range 1 (d + 1))
              (slot_body cfg slot_fees (1 + Z.of_nat i) d slab 0) slot)
    with (s := s3) (s' := s4) as (s5 & s6 & Hsl & Hincl4);
    [intros; eapply slot_body_extends; eauto | apply in_range; lia
    | exact Hslab |].
  destruct (slot_body_zero_users cfg slot_fees (1 + Z.of_nat i) d slab slot
              row s f rate k s5 Hrow Hs Hb Hfee Hf Hrate Hr Hk Hkf Hdr)
    as (r & Er & Hm & Hdu & Hsb & Hst & Hu & Hfc & Hn & Hde & Hpr & Hdep & Hfp).
  rewrite Er in Hsl. inversion Hsl; subst s6; clear Hsl.
  exists r. split.
  - apply Hincl1, Hincl2, Hincl3, Hincl4.
    apply in_or_app; right; left; reflexivity.
  - repeat split; try assumption.
    intros Hne. rewrite Hdep. apply Z.neq_mul_0. split; lia.
Qed.

Lemma month_loop_tam_used_witness :
  base_users shrinking_config = Ok 19 /\
  (exists st,
     month_loop shrinking_config [3] scenario_slab_map scenario_slot_fees
       (range 1 (months + 1)) (initial_state 19) = Ok st /\
     exists x lim path,
       py_mul (total_market shrinking_config) (tam_pct shrinking_config)
         = Ok x /\
       py_truediv x (PInt 100) = Ok lim /\
       lim = float_lit 190 /\
       growth_path shrinking_config lim 60 19 19 path /\
       active_users st = last path 19 /\
       tam_used st = 19 + sum_int path /\
       (forall a a', grow shrinking_config a = Ok a' ->
          exists g k p,
            py_truediv (monthly_growth shrinking_config) (PInt 100) = Ok g /\
            fadd (PInt 1) (PFloat g) = Ok k /\
            fmul (PInt a) (PFloat k) = Ok p /\
            py_int p = Ok a' /\
            trunc_of p a' /\
            (nonneg p = true -> floor_of p a')) /\
       (forall durations' slab_map' slot_fees' st2,
          month_loop shrinking_config durations' slab_map' slot_fees'
            (range 1 (months + 1)) (initial_state 19) = Ok st2 ->
          active_users st2 = active_users st /\
          tam_used st2 = tam_used st)).
Proof.
  split; [vm_compute; reflexivity|].
  destruct (month_loop shrinking_config [3] scenario_slab_map
              scenario_slot_fees (range 1 (months + 1)) (initial_state 19))
    as [st|e] eqn:E; [|vm_compute in E; discriminate E].
  exists st. split; [reflexivity|].
  destruct (month_loop_tam_used shrinking_config [3] scenario_slab_map
              scenario_slot_fees 19 st)
    as (x & lim & path & Hx & Hl & Hrest);
    [vm_compute; reflexivity | exact E |].
  exists x, lim, path. split; [exact Hx|]. split; [exact Hl|].
  split; [|exact Hrest].
  vm_compute in Hx. inversion Hx; subst x.
  vm_compute in Hl. inversion Hl. reflexivity.
Defined.

Lemma zero_user_rows_are_emitted_witness :
  run_forecast tiny_config [3] tiny_slab_map scenario_slot_fees
    = Ok tiny_table /\
  month_start tiny_config 0 10 10 /\
  py_gt (PFloat (float_lit 5)) (PInt 0) = true /\
  py_truediv (PFloat (float_lit 5)) (PInt 100)
    = Ok (S754_finite false 7205759403792794 (-57)) /\
  fmul (PInt 10) (PFloat (S754_finite false 7205759403792794 (-57)))
    = Ok (S754_finite false 4503599627370496 (-53)) /\
  py_lt (PFloat (S754_finite false 4503599627370496 (-53))) (PInt 1) = true /\
  exists r,
    In r (rows tiny_table) /\
    Month r = 1 + Z.of_nat 0 /\
    Duration r = 3 /\ Slab r = 1000 /\ Slot r = 2 /\
    Users r = 0 /\
    is_zero (Fee_Collected r) = true /\
    is_zero (NII r) = true /\
    Defaults r = 0 /\
    is_zero (Profit r) = true /\
    Deposit_User r = 1000 * 3 /\
    (1000 <> 0 -> Deposit_User r <> 0) /\
    Fee_pct r = fee {| fee := PInt 1; blocked := false |}.
Proof.
  assert (Hstart : month_start tiny_config 0 10 10).
  { exists 10. split; [vm_compute; reflexivity | constructor]. }
  split; [vm_compute; reflexivity|].
  split; [exact Hstart|].
  split; [vm_compute; reflexivity|].
  split; [vm_compute; reflexivity|].
  split; [vm_compute; reflexivity|].
  split; [vm_compute; reflexivity|].
  apply (zero_user_rows_are_emitted tiny_config [3] tiny_slab_map
           scenario_slot_fees tiny_table 0%nat 10 10 3
           [(1000, PFloat (float_lit 5))] 1000 (PFloat (float_lit 5))
           (S754_finite false 7205759403792794 (-57))
           (S754_finite false 4503599627370496 (-53))
           2
           [(1, {| fee := PInt 1; blocked := false |});
            (2, {| fee := PInt 1; blocked := false |});
            (3, {| fee := PInt 1; blocked := false |})]
           {| fee := PInt 1; blocked := false |}
           (S754_finite false 8444249301319680 (-48))
           (S754_finite false 7686143364045647 (-59))
           (S754_finite false 8106479329266893 (-53))).
  - vm_compute; reflexivity.
  - exact Hstart.
  - lia.
  - lia.
  - left; reflexivity.
  - vm_compute; reflexivity.
  - left; reflexivity.
  - vm_compute; reflexivity.
  - vm_compute; reflexivity.
  - vm_compute; reflexivity.
  - vm_compute; reflexivity.
  - lia.
  - vm_compute; reflexivity.
  - vm_compute; reflexivity.
  - reflexivity.
  - vm_compute; reflexivity.
  - reflexivity.
  - vm_compute; reflexivity.
  - reflexivity.
  - vm_compute; reflexivity.
  - reflexivity.
  - reflexivity.
Defined.

(** * Further properties of the engine *)

(** ** The rows a loop appends *)

Lemma for_each_appends {A B : Type} (P : B -> Prop) (xs : list A)
    (body : A -> list B -> result (list B)) :
  (forall x s s', In x xs -> body x s = Ok s' ->
     exists new, s' = s ++ new /\ Forall P new) ->
  forall s s', for_each xs body s = Ok s' ->
    exists new, s' = s ++ new /\ Forall P new.
Proof.
  induction xs as [|x xs IH]; simpl; intros Hbody s s' H.
  - inversion H; subst. exists []. rewrite app_nil_r. auto.
  - bind_inv H s1 E.
    destruct (Hbody x s s1 (or_introl eq_refl) E) as (n1 & -> & Hn1).
    destruct (IH (fun y t t' Hy => Hbody y t t' (or_intror Hy)) _ _ H)
      as (n2 & -> & Hn2).
    exists (n1 ++ n2). rewrite app_assoc. split; [reflexivity|].
    apply Forall_app; auto.
Qed.

Section Rows.

Variable cfg : config.
Variable durations : list Z.
Variable slab_map : dict (dict pynum).
Variable slot_fees : dict (dict slot_setting).

Let filled := row_of cfg slab_map slot_fees durations.

Lemma slot_body_appends m d slab pct items a users slot fc fc' :
  In d durations ->
  getitem slab_map d = Ok items -> In (slab, pct) items ->
  py_gt pct (PInt 0) = true -> users_of a pct = Ok users ->
  1 <= slot <= d ->
  slot_body cfg slot_fees m d slab users slot fc = Ok fc' ->
  exists new, fc' = fc ++ new /\ Forall (filled m a) new.
Proof.
  intros Hd Hitems Hin Hpct Husers Hslot H.
  unfold slot_body in H.
  bind_inv H row Erow. bind_inv H s Es.
  destruct (blocked s) eqn:Hb.
  - inversion H; subst. exists []. rewrite app_nil_r. auto.
  - bind_inv H f Ef. bind_inv H nii En. bind_inv H dflt Ed.
    bind_inv H pl Epl. bind_inv H pr Epr. bind_inv H fcol Efc.
    inversion H; subst fc'. eexists; split; [reflexivity|].
    constructor; [|constructor].
    unfold filled, row_of; simpl.
    split; [reflexivity|]. split; [reflexivity|]. split; [exact Hd|].
    split; [exists items, pct; auto|]. split; [exact Hslot|].
    split; [exists row, s; auto|]. split; [reflexivity|].
    exists f, pl. auto 10.
Qed.

Lemma slab_body_appends m d items a item fc fc' :
  In d durations ->
  getitem slab_map d = Ok items -> In item items ->
  slab_body cfg slot_fees m d a item fc = Ok fc' ->
  exists new, fc' = fc ++ new /\ Forall (filled m a) new.
Proof.
  intros Hd Hitems Hin H.
  unfold slab_body in H. destruct item as [slab pct]; simpl in H.
  destruct (py_le pct (PInt 0)) eqn:Hpct.
  - inversion H; subst. exists []. rewrite app_nil_r. auto.
  - bind_inv H users Eu.
    revert H. apply for_each_appends.
    intros slot s s' Hslot Hbody.
    eapply slot_body_appends; eauto.
    + eapply py_gt_zero_of_not_le; eauto.
    + apply in_range in Hslot. lia.
Qed.

Lemma month_rows_append m a fc fc' :
  for_each durations (duration_body cfg slab_map slot_fees m a) fc = Ok fc' ->
  exists new, fc' = fc ++ new /\ Forall (filled m a) new.
Proof.
  apply for_each_appends.
  intros d s s' Hd H. unfold duration_body in H. bind_inv H items Ei.
  revert H. apply for_each_appends.
  intros item t t' Hin Hbody.
  eapply slab_body_appends; eauto.
Qed.

(** Every appended row belongs to an iteration the loop went through. *)
Lemma month_loop_rows ms :
  forall st st',
    month_loop cfg durations slab_map slot_fees ms st = Ok st' ->
    exists new,
      forecast st' = forecast st ++ new /\
      Forall (fun r => exists j m a t,
                nth_error ms j = Some m /\
                advances cfg j (active_users st) (tam_used st) a t /\
                filled m a r) new.
Proof.
  induction ms as [|m ms IH]; simpl; intros st st' H.
  - inversion H; subst. exists []. rewrite app_nil_r. auto.
  - bind_inv H fc Efc. bind_inv H a1 Ea. bind_inv H lim El.
    destruct (month_rows_append _ _ _ _ Efc) as (n1 & -> & Hn1).
    assert (Hn1' : Forall (fun r => exists j m0 a t,
                nth_error (m :: ms) j = Some m0 /\
                advances cfg j (active_users st) (tam_used st) a t /\
                filled m0 a r) n1).
    { eapply Forall_impl; [|exact Hn1]. intros r Hr.
      exists 0%nat, m, (active_users st), (tam_used st).
      split; [reflexivity|]. split; [constructor | exact Hr]. }
    destruct (py_ge _ _) eqn:Hb.
    + inversion H; subst st'; simpl. exists n1. auto.
    + apply IH in H. simpl in H. destruct H as (n2 & -> & Hn2).
      exists (n1 ++ n2). rewrite app_assoc. split; [reflexivity|].
      apply Forall_app; split; [exact Hn1'|].
      eapply Forall_impl; [|exact Hn2].
      intros r (j & m0 & a & t & Hj & Hadv & Hr).
      exists (S j), m0, a, t. split; [exact Hj|]. split; [|exact Hr].
      eapply advances_S; eauto.
Qed.

End Rows.

Lemma nth_error_range_inv (lo hi : Z) (j : nat) (m : Z) :
  nth_error (range lo hi) j = Some m ->
  (j < Z.to_nat (hi - lo))%nat /\ m = lo + Z.of_nat j.
Proof.
  unfold range. rewrite nth_error_map, nth_error_seq.
  destruct (Nat.ltb_spec j (Z.to_nat (hi - lo))) as [Hlt|Hge]; simpl;
    intros E; inversion E; subst. split; [assumption | reflexivity].
Qed.

Lemma rows_origin cfg durations slab_map slot_fees df :
  run_forecast cfg durations slab_map slot_fees = Ok df ->
  forall r, In r (rows df) ->
    exists i a t,
      (i < 60)%nat /\
      Month r = 1 + Z.of_nat i /\
      month_start cfg i a t /\
      row_of cfg slab_map slot_fees durations (Month r) a r.
Proof.
  intros H r Hr.
  unfold run_forecast in H. bind_inv H b Eb. bind_inv H st Est.
  inversion H; subst df; clear H. simpl in Hr.
  destruct (month_loop_rows _ _ _ _ _ _ _ Est) as (new & Hnew & Hall).
  simpl in Hnew. rewrite Hnew in Hr.
  rewrite Forall_forall in Hall.
  destruct (Hall r Hr) as (j & m & a & t & Hj & Hadv & Hrow).
  apply nth_error_range_inv in Hj. destruct Hj as [Hj ->].
  change (Z.to_nat (months + 1 - 1)) with 60%nat in Hj.
  simpl in Hadv.
  assert (Hm : Month r = 1 + Z.of_nat j) by (destruct Hrow as [Hm _]; exact Hm).
  exists j, a, t. split; [exact Hj|]. split; [exact Hm|].
  split; [exists b; auto|]. rewrite Hm. exact Hrow.
Qed.

(** X1: every row of the forecast is filled by the loop body from the
    active_users value with which the month loop entered the row's month:
    Users is int(active_users * (pct/100)) for the row's slab percentage, and
    Deposit/User, Fee Collected, NII, Defaults and Profit follow the
    formulas of the loop body on the row's own Users, Slab, Duration and
    Fee %. *)
Theorem run_forecast_rows_filled :
  forall cfg durations slab_map slot_fees df,
    run_forecast cfg durations slab_map slot_fees = Ok df ->
    forall r, In r (rows df) ->
      exists i a t,
        (i < 60)%nat /\
        Month r = 1 + Z.of_nat i /\
        month_start cfg i a t /\
        row_of cfg slab_map slot_fees durations (Month r) a r.
Proof.
  intros cfg durations slab_map slot_fees df H.
  exact (rows_origin cfg durations slab_map slot_fees df H).
Qed.

Lemma run_forecast_rows_filled_witness :
  scenario_forecast = Ok scenario_table /\
  forall r, In r (rows scenario_table) ->
    exists i a t,
      (i < 60)%nat /\
      Month r = 1 + Z.of_nat i /\
      month_start scenario_config i a t /\
      row_of scenario_config scenario_slab_map scenario_slot_fees [3]
        (Month r) a r.
Proof.
  split; [vm_compute; reflexivity|].
  apply (run_forecast_rows_filled scenario_config [3] scenario_slab_map
           scenario_slot_fees scenario_table).
  vm_compute; reflexivity.
Defined.

(** ** Rows of one month *)

Lemma advances_deterministic cfg i a0 t0 a t a' t' :
  advances cfg i a0 t0 a t ->
  advances cfg i a0 t0 a' t' ->
  a = a' /\ t = t'.
Proof.
  intros H1. revert a' t'.
  induction H1 as [a t|i a0 t0 a1 lim a t Hg Hl Hb Hrest IH];
    intros a' t' H2.
  - inversion H2; subst. auto.
  - inversion H2 as [|? ? ? a2 lim2 ? ? Hg2 Hl2 Hb2 Hrest2]; subst.
    assert (a2 = a1) by congruence. subst a2. apply IH. assumption.
Qed.

Lemma month_start_deterministic cfg i a t a' t' :
  month_start cfg i a t -> month_start cfg i a' t' -> a = a' /\ t = t'.
Proof.
  intros (b & Hb & H1) (b' & Hb' & H2).
  assert (b' = b) by congruence. subst b'.
  eapply advances_deterministic; eauto.
Qed.

Lemma Ok_inj {A : Type} (x y : A) : Ok x = Ok y -> x = y.
Proof. intros H; inversion H; reflexivity. Qed.

(** X2: with slab keys that are unique within a duration (as dict keys
    are), two rows of the same month, duration and slab have the same Users,
    Deposit/User, NII and Defaults: within such a group rows differ by slot
    and by what depends on the slot's fee only. *)
Theorem rows_of_a_slab_agree :
  forall cfg durations slab_map slot_fees df,
    run_forecast cfg durations slab_map slot_fees = Ok df ->
    (forall d items, getitem slab_map d = Ok items -> NoDup (map fst items)) ->
    forall r1 r2,
      In r1 (rows df) -> In r2 (rows df) ->
      Month r1 = Month r2 -> Duration r1 = Duration r2 -> Slab r1 = Slab r2 ->
      Users r1 = Users r2 /\
      Deposit_User r1 = Deposit_User r2 /\
      NII r1 = NII r2 /\
      Defaults r1 = Defaults r2.
Proof.
  intros cfg durations slab_map slot_fees df H Hnd r1 r2 H1 H2 Hm Hd Hs.
  destruct (rows_origin _ _ _ _ _ H r1 H1)
    as (i1 & a1 & t1 & _ & Hm1 & Hst1 & Hrow1).
  destruct (rows_origin _ _ _ _ _ H r2 H2)
    as (i2 & a2 & t2 & _ & Hm2 & Hst2 & Hrow2).
  assert (i2 = i1) by lia. subst i2.
  destruct (month_start_deterministic _ _ _ _ _ _ Hst1 Hst2) as [<- <-].
  destruct Hrow1 as (_ & _ & _ & (it1 & p1 & Ei1 & Hin1 & _ & Hu1) & _ & _
                     & Hdep1 & (f1 & pl1 & _ & _ & Hn1 & Hdf1 & _)).
  destruct Hrow2 as (_ & _ & _ & (it2 & p2 & Ei2 & Hin2 & _ & Hu2) & _ & _
                     & Hdep2 & (f2 & pl2 & _ & _ & Hn2 & Hdf2 & _)).
  rewrite <- Hd in Ei2. rewrite Ei1 in Ei2. apply Ok_inj in Ei2. subst it2.
  rewrite <- Hs in Hin2.
  assert (p2 = p1).
  { eapply NoDup_keys_functional; [eapply Hnd; exact Ei1 | exact Hin2 | exact Hin1]. }
  subst p2.
  assert (Hu : Users r1 = Users r2) by (apply Ok_inj; congruence).
  assert (Hdep : Deposit_User r1 = Deposit_User r2) by congruence.
  split; [exact Hu|]. split; [exact Hdep|].
  rewrite <- Hu, <- Hdep in Hn2. rewrite <- Hu in Hdf2.
  split; apply Ok_inj; congruence.
Qed.

Lemma rows_of_a_slab_agree_witness :
  scenario_forecast = Ok scenario_table /\
  (forall d items, getitem scenario_slab_map d = Ok items ->
     NoDup (map fst items)) /\
  forall r1 r2,
    In r1 (rows scenario_table) -> In r2 (rows scenario_table) ->
    Month r1 = Month r2 -> Duration r1 = Duration r2 -> Slab r1 = Slab r2 ->
    Users r1 = Users r2 /\
    Deposit_User r1 = Deposit_User r2 /\
    NII r1 = NII r2 /\
    Defaults r1 = Defaults r2.
Proof.
  assert (Hnd : forall d items, getitem scenario_slab_map d = Ok items ->
                  NoDup (map fst items)).
  { intros d items. unfold scenario_slab_map. simpl.
    destruct (d =? 3); intros E; inversion E; subst.
    simpl. repeat constructor. simpl; tauto. }
  split; [vm_compute; reflexivity|]. split; [exact Hnd|].
  apply (rows_of_a_slab_agree scenario_config [3] scenario_slab_map
           scenario_slot_fees scenario_table).
  - vm_compute; reflexivity.
  - exact Hnd.
Defined.

(** ** Order of the rows *)

Lemma StronglySorted_app {A : Type} (R : A -> A -> Prop) (l1 l2 : list A) :
  StronglySorted R l1 -> StronglySorted R l2 ->
  (forall x y, In x l1 -> In y l2 -> R x y) ->
  StronglySorted R (l1 ++ l2).
Proof.
  induction l1 as [|a l1 IH]; simpl; intros H1 H2 H12; [exact H2|].
  inversion H1 as [|? ? Hs Hall]; subst.
  constructor.
  - apply IH; auto.
  - apply Forall_app; split; [exact Hall|].
    apply Forall_forall. intros y Hy. apply H12; auto.
Qed.

Lemma StronglySorted_constant (m : Z) (l : list Z) :
  Forall (fun x => x = m) l -> StronglySorted Z.le l.
Proof.
  induction 1 as [|x l Hx Hl IH]; constructor; [exact IH|].
  subst x. eapply Forall_impl; [|exact Hl].
  intros a Ha. simpl in Ha. subst a. apply Z.le_refl.
Qed.

Lemma range_sorted (lo hi : Z) : StronglySorted Z.le (range lo hi).
Proof.
  unfold range. generalize (Z.to_nat (hi - lo)) as n. generalize 0%nat as s.
  intros s n. revert s. induction n as [|n IH]; intros s; simpl.
  - constructor.
  - constructor; [apply IH|].
    apply Forall_forall. intros x Hx.
    apply in_map_iff in Hx. destruct Hx as (i & <- & Hi).
    apply in_seq in Hi. lia.
Qed.

Lemma month_loop_sorted cfg durations slab_map slot_fees ms :
  StronglySorted Z.le ms ->
  forall st st',
    month_loop cfg durations slab_map slot_fees ms st = Ok st' ->
    exists new,
      forecast st' = forecast st ++ new /\
      StronglySorted Z.le (map Month new) /\
      Forall (fun r => In (Month r) ms) new.
Proof.
  induction 1 as [|m ms Hs IH Hall]; simpl; intros st st' H.
  - inversion H; subst. exists []. rewrite app_nil_r.
    repeat split; constructor.
  - bind_inv H fc Efc. bind_inv H a1 Ea. bind_inv H lim El.
    destruct (month_rows_append _ _ _ _ _ _ _ _ Efc) as (n1 & -> & Hn1).
    assert (Hm1 : Forall (fun r => Month r = m) n1).
    { eapply Forall_impl; [|exact Hn1]. intros r [Hm _]; exact Hm. }
    assert (Hs1 : StronglySorted Z.le (map Month n1)).
    { apply StronglySorted_constant with m. rewrite Forall_map. exact Hm1. }
    assert (Hin1 : Forall (fun r => In (Month r) (m :: ms)) n1).
    { eapply Forall_impl; [|exact Hm1]. intros r ->; left; reflexivity. }
    destruct (py_ge _ _).
    + inversion H; subst st'; simpl. exists n1. auto.
    + apply IH in H. simpl in H. destruct H as (n2 & -> & Hs2 & Hin2).
      exists (n1 ++ n2). rewrite app_assoc. split; [reflexivity|].
      split.
      * rewrite map_app. apply StronglySorted_app; auto.
        intros x y Hx Hy.
        apply in_map_iff in Hx. destruct Hx as (r1 & <- & Hr1).
        apply in_map_iff in Hy. destruct Hy as (r2 & <- & Hr2).
        rewrite Forall_forall in Hm1, Hin2, Hall.
        rewrite (Hm1 r1 Hr1). apply Hall. apply Hin2. exact Hr2.
      * apply Forall_app; split; [exact Hin1|].
        eapply Forall_impl; [|exact Hin2]. intros r Hr; right; exact Hr.
Qed.

(** X3: the rows of the forecast are in month order: Month never decreases
    along the table, and neither does Year. *)
Theorem run_forecast_rows_in_month_order :
  forall cfg durations slab_map slot_fees df,
    run_forecast cfg durations slab_map slot_fees = Ok df ->
    StronglySorted Z.le (map Month (rows df)) /\
    StronglySorted Z.le (map Year (rows df)).
Proof.
  intros cfg durations slab_map slot_fees df H.
  assert (Hy : forall r, In r (rows df) -> Year r = (Month r - 1) / 12 + 1).
  { intros r Hr. destruct (rows_origin _ _ _ _ _ H r Hr)
      as (i & a & t & _ & _ & _ & Hrow).
    destruct Hrow as (_ & Hyr & _). exact Hyr. }
  unfold run_forecast in H. bind_inv H b Eb. bind_inv H st Est.
  inversion H; subst df; clear H. cbn [rows pd_DataFrame] in *.
  destruct (month_loop_sorted _ _ _ _ _ (range_sorted 1 (months + 1)) _ _ Est)
    as (new & Hnew & Hs & _).
  cbn [forecast initial_state app] in Hnew. clear Est.
  rewrite Hnew in *. clear Hnew.
  split; [exact Hs|].
  induction new as [|r new IH]; simpl; [constructor|].
  simpl in Hs. inversion Hs as [|? ? Hs' Hall]; subst.
  constructor.
  - apply IH; [|exact Hs']. intros r' Hr'. apply Hy. right; exact Hr'.
  - rewrite Forall_map in *. apply Forall_forall. intros r' Hr'.
    rewrite Forall_forall in Hall. specialize (Hall r' Hr').
    rewrite (Hy r (or_introl eq_refl)), (Hy r' (or_intror Hr')).
    apply Z.add_le_mono_r. apply Z.div_le_mono; lia.
Qed.

Lemma run_forecast_rows_in_month_order_witness :
  scenario_forecast = Ok scenario_table /\
  StronglySorted Z.le (map Month (rows scenario_table)) /\
  StronglySorted Z.le (map Year (rows scenario_table)).
Proof.
  split; [vm_compute; reflexivity|].
  apply (run_forecast_rows_in_month_order scenario_config [3]
           scenario_slab_map scenario_slot_fees scenario_table).
  vm_compute; reflexivity.
Defined.

(** ** The months the loop runs *)

Lemma growth_path_length cfg lim n a t path :
  growth_path cfg lim n a t path -> (List.length path <= n)%nat.
Proof. induction 1; simpl; lia. Qed.

Lemma growth_path_stops cfg lim n a t path :
  growth_path cfg lim n a t path ->
  (List.length path < n)%nat ->
  py_ge (PInt (t + sum_int path)) (PFloat lim) = true.
Proof.
  induction 1 as [a t|n a t a1 Hg Hb|n a t a1 p Hg Hb Hp IH]; simpl; intros Hl.
  - lia.
  - rewrite sum_int_cons. unfold sum_int at 1; simpl.
    rewrite Z.add_0_r. exact Hb.
  - rewrite sum_int_cons, Z.add_assoc. apply IH. lia.
Qed.

Lemma advances_within_path cfg lim j a0 t0 a t :
  tam_ceiling cfg = Ok lim ->
  advances cfg j a0 t0 a t ->
  forall n path,
    growth_path cfg lim n a0 t0 path ->
    (j < n)%nat ->
    (j < List.length path)%nat.
Proof.
  intros Hlim. induction 1 as [a t|j a0 t0 a1 lim' a t Hg Hl Hb Hrest IH];
    intros n path Hp Hj.
  - inversion Hp; subst; simpl; lia.
  - assert (lim' = lim) by congruence. subst lim'.
    inversion Hp as [|? ? ? a2 Hg2 Hb2|? ? ? a2 p Hg2 Hb2 Hp2]; subst.
    + lia.
    + assert (a2 = a1) by congruence. subst a2. congruence.
    + assert (a2 = a1) by congruence. subst a2.
      simpl. apply -> Nat.succ_lt_mono. eapply IH; eauto. lia.
Qed.

(** X4: the forecast has rows only for the months the loop runs: with
    [path] the grown active-user values from base_users up to the first
    month whose tam_used reaches total_market * tam_pct/100 (or 60 months),
    every row has its Month between 1 and the length of the path; at least
    one month runs, and when fewer than 60 do, tam_used has reached the
    ceiling. *)
Theorem run_forecast_stops_at_ceiling :
  forall cfg durations slab_map slot_fees df,
    run_forecast cfg durations slab_map slot_fees = Ok df ->
    exists b lim path,
      base_users cfg = Ok b /\
      tam_ceiling cfg = Ok lim /\
      growth_path cfg lim 60 b b path /\
      (1 <= List.length path <= 60)%nat /\
      (forall r, In r (rows df) ->
         1 <= Month r <= Z.of_nat (List.length path)) /\
      ((List.length path < 60)%nat ->
         py_ge (PInt (b + sum_int path)) (PFloat lim) = true).
Proof.
  intros cfg durations slab_map slot_fees df H.
  pose proof (rows_origin _ _ _ _ _ H) as Horigin.
  unfold run_forecast in H. bind_inv H b Eb. bind_inv H st Est.
  inversion H; subst df; clear H. cbn [rows pd_DataFrame] in Horigin.
  assert (Hl : exists lim, tam_ceiling cfg = Ok lim).
  { rewrite range_months in Est. eapply month_loop_ceiling; eauto. }
  destruct Hl as (lim & Hlim).
  destruct (month_loop_growth_path cfg lim Hlim _ _ _ _ _ _ Est)
    as (path & Hp & _ & _).
  change (List.length (range 1 (months + 1))) with 60%nat in Hp.
  cbn [active_users tam_used initial_state] in Hp.
  exists b, lim, path.
  split; [exact Eb|]. split; [exact Hlim|]. split; [exact Hp|].
  split.
  - split; [|eapply growth_path_length; eauto].
    inversion Hp; subst; simpl; lia.
  - split.
    + intros r Hr.
      destruct (Horigin r Hr) as (i & a & t & Hi & Hm & (b' & Eb' & Hadv) & _).
      assert (b' = b) by congruence. subst b'.
      pose proof (advances_within_path _ _ _ _ _ _ _ Hlim Hadv _ _ Hp Hi).
      lia.
    + intros Hlt. eapply growth_path_stops; eauto.
Qed.

Lemma run_forecast_stops_at_ceiling_witness :
  scenario_forecast = Ok scenario_table /\
  exists b lim path,
    base_users scenario_config = Ok b /\
    tam_ceiling scenario_config = Ok lim /\
    growth_path scenario_config lim 60 b b path /\
    (1 <= List.length path <= 60)%nat /\
    (forall r, In r (rows scenario_table) ->
       1 <= Month r <= Z.of_nat (List.length path)) /\
    ((List.length path < 60)%nat ->
       py_ge (PInt (b + sum_int path)) (PFloat lim) = true).
Proof.
  split; [vm_compute; reflexivity|].
  apply (run_forecast_stops_at_ceiling scenario_config [3] scenario_slab_map
           scenario_slot_fees scenario_table).
  vm_compute; reflexivity.
Defined.

(** ** No row is skipped *)

Lemma slot_body_unblocked cfg slot_fees m d slab users slot row s fc fc' :
  getitem slot_fees d = Ok row ->
  getitem row slot = Ok s ->
  blocked s = false ->
  slot_body cfg slot_fees m d slab users slot fc = Ok fc' ->
  exists r,
    fc' = fc ++ [r] /\
    Month r = m /\ Duration r = d /\ Slab r = slab /\ Slot r = slot /\
    Users r = users /\ Fee_pct r = fee s.
Proof.
  intros Hrow Hs Hb H. unfold slot_body in H.
  rewrite Hrow in H; cbn [bind] in H. rewrite Hs in H; cbn [bind] in H.
  rewrite Hb in H.
  bind_inv H f Ef. bind_inv H nii En. bind_inv H dflt Ed.
  bind_inv H pl Epl. bind_inv H pr Epr. bind_inv H fcol Efc.
  inversion H; subst fc'. eexists; split; [reflexivity|].
  simpl. repeat split; reflexivity.
Qed.

(** X5: no combination is skipped: for every month the loop enters, every
    selected duration, every slab of it with a percentage > 0 and every
    slot of it that is not blocked, the forecast has a row with that Month,
    Duration, Slab and Slot, whose Users is int(active_users * (pct/100))
    for the active_users of that month and whose Fee % is the slot's fee. *)
Theorem run_forecast_no_row_skipped :
  forall cfg durations slab_map slot_fees df i a t d items slab pct slot
         row s,
    run_forecast cfg durations slab_map slot_fees = Ok df ->
    month_start cfg i a t ->
    (i < 60)%nat ->
    In d durations ->
    getitem slab_map d = Ok items ->
    In (slab, pct) items ->
    py_gt pct (PInt 0) = true ->
    1 <= slot <= d ->
    getitem slot_fees d = Ok row ->
    getitem row slot = Ok s ->
    blocked s = false ->
    exists r,
      In r (rows df) /\
      Month r = 1 + Z.of_nat i /\
      Duration r = d /\ Slab r = slab /\ Slot r = slot /\
      users_of a pct = Ok (Users r) /\
      Fee_pct r = fee s.
Proof.
  intros cfg durations slab_map slot_fees df i a t d items slab pct slot
         row s Hrun (b & Hbase & Hadv) Hi Hd Hitems Hitem Hgt Hslot
         Hrow Hs Hb.
  unfold run_forecast in Hrun.
  bind_inv Hrun b' Eb. bind_inv Hrun st Est.
  inversion Hrun; subst df; clear Hrun. cbn [rows pd_DataFrame].
  assert (b' = b) by congruence. subst b'.
  destruct (month_loop_visits cfg durations slab_map slot_fees i
              (range 1 (months + 1)) (initial_state b) st
              (1 + Z.of_nat i) a t Est Hadv)
    as (fc0 & fc1 & Hmonth & Hincl1).
  { apply nth_error_range. change (Z.to_nat (months + 1 - 1)) with 60%nat.
    exact Hi. }
  destruct (for_each_visit durations
              (duration_body cfg slab_map slot_fees (1 + Z.of_nat i) a) d)
    with (s := fc0) (s' := fc1) as (s1 & s2 & Hdur & Hincl2);
    [intros; eapply duration_body_extends; eauto | exact Hd | exact Hmonth |].
  unfold duration_body in Hdur. rewrite Hitems in Hdur. cbn [bind] in Hdur.
  destruct (for_each_visit items
              (slab_body cfg slot_fees (1 + Z.of_nat i) d a) (slab, pct))
    with (s := s1) (s' := s2) as (s3 & s4 & Hslab & Hincl3);
    [intros; eapply slab_body_extends; eauto | exact Hitem | exact Hdur |].
  unfold slab_body in Hslab. cbn [fst snd] in Hslab.
  rewrite (py_gt_not_le _ _ Hgt) in Hslab.
  bind_inv Hslab users Eu.
  destruct (for_each_visit (range 1 (d + 1))
              (slot_body cfg slot_fees (1 + Z.of_nat i) d slab users) slot)
    with (s := s3) (s' := s4) as (s5 & s6 & Hsl & Hincl4);
    [intros; eapply slot_body_extends; eauto | apply in_range; lia
    | exact Hslab |].
  destruct (slot_body_unblocked _ _ _ _ _ _ _ _ _ _ _ Hrow Hs Hb Hsl)
    as (r & -> & Hm & Hdu & Hsb & Hst & Hu & Hfp).
  exists r. split.
  - apply Hincl1, Hincl2, Hincl3, Hincl4.
    apply in_or_app; right; left; reflexivity.
  - rewrite Hu. auto 10.
Qed.

Lemma run_forecast_no_row_skipped_witness :
  run_forecast scenario_config mixed_durations mixed_slab_map mixed_slot_fees
    = Ok mixed_table /\
  month_start scenario_config 0 200000 200000 /\
  exists r,
    In r (rows mixed_table) /\
    Month r = 1 + Z.of_nat 0 /\
    Duration r = 3 /\ Slab r = 1000 /\ Slot r = 3 /\
    users_of 200000 (PFloat (float_lit 100)) = Ok (Users r) /\
    Fee_pct r = fee {| fee := PFloat (float_lit 2); blocked := false |}.
Proof.
  assert (Hstart : month_start scenario_config 0 200000 200000).
  { exists 200000. split; [vm_compute; reflexivity | constructor]. }
  split; [vm_compute; reflexivity|]. split; [exact Hstart|].
  apply (run_forecast_no_row_skipped scenario_config mixed_durations
           mixed_slab_map mixed_slot_fees mixed_table 0%nat 200000 200000 3
           [(1000, PFloat (float_lit 100)); (2000, PFloat (S754_zero false))]
           1000 (PFloat (float_lit 100)) 3
           [(1, {| fee := PFloat (float_lit 1); blocked := false |});
            (2, {| fee := PFloat (float_lit 1); blocked := true |});
            (3, {| fee := PFloat (float_lit 2); blocked := false |})]
           {| fee := PFloat (float_lit 2); blocked := false |}).
  - vm_compute; reflexivity.
  - exact Hstart.
  - lia.
  - left; reflexivity.
  - reflexivity.
  - left; reflexivity.
  - vm_compute; reflexivity.
  - lia.
  - reflexivity.
  - reflexivity.
  - reflexivity.
Defined.

(** ** Exceptions *)

Section Raises.

Variable P : exn -> Prop.
Hypothesis P_value : P ValueError.
Hypothesis P_overflow : P OverflowError.

Lemma raises_only_bind {A B : Type} (r : result A) (k : A -> result B) :
  raises_only P r ->
  (forall a, r = Ok a -> raises_only P (k a)) ->
  raises_only P (bind r k).
Proof.
  intros Hr Hk e H. destruct r as [a|e']; simpl in H.
  - eapply Hk; eauto.
  - apply Hr. inversion H; reflexivity.
Qed.

Lemma raises_only_Ok {A : Type} (a : A) : raises_only P (Ok a).
Proof. intros e H; discriminate. Qed.

Lemma for_each_raises {A S : Type} (xs : list A)
    (body : A -> S -> result S) :
  (forall x s, In x xs -> raises_only P (body x s)) ->
  forall s, raises_only P (for_each xs body s).
Proof.
  induction xs as [|x xs IH]; simpl; intros Hbody s.
  - apply raises_only_Ok.
  - apply raises_only_bind; [apply Hbody; left; reflexivity|].
    intros s1 _. apply IH. intros; apply Hbody; right; assumption.
Qed.

Lemma float_of_int_raises (z : Z) : raises_only P (float_of_int z).
Proof.
  intros e. unfold float_of_int.
  destruct (binary_normalize prec emax z 0 false); intros H; inversion H;
    subst; exact P_overflow.
Qed.

Lemma to_float_raises (x : pynum) : raises_only P (to_float x).
Proof.
  destruct x; simpl; [apply float_of_int_raises | apply raises_only_Ok].
Qed.

Lemma float_binop_raises op (a b : pynum) :
  raises_only P (float_binop op a b).
Proof.
  unfold float_binop.
  apply raises_only_bind; [apply to_float_raises|]. intros fa _.
  apply raises_only_bind; [apply to_float_raises|]. intros fb _.
  apply raises_only_Ok.
Qed.

Lemma py_add_raises (a b : pynum) : raises_only P (py_add a b).
Proof.
  destruct a, b; simpl; try apply raises_only_Ok;
    (apply raises_only_bind; [apply float_binop_raises|];
     intros; apply raises_only_Ok).
Qed.

Lemma py_mul_raises (a b : pynum) : raises_only P (py_mul a b).
Proof.
  destruct a, b; simpl; try apply raises_only_Ok;
    (apply raises_only_bind; [apply float_binop_raises|];
     intros; apply raises_only_Ok).
Qed.

(** Division by a literal that is not zero never raises ZeroDivisionError. *)
Lemma py_truediv_raises (a : pynum) (k : Z) (fk : spec_float) :
  k <> 0 -> float_of_int k = Ok fk -> is_zero fk = false ->
  raises_only P (py_truediv a (PInt k)).
Proof.
  intros Hk Hfk Hz e. unfold py_truediv. destruct a as [x|f].
  - destruct (Z.eqb_spec k 0); [contradiction|].
    destruct (SFdiv prec emax (exact_int x) (exact_int k));
      intros H; inversion H; subst; exact P_overflow.
  - cbn [to_float bind]. rewrite Hfk. cbn [bind]. rewrite Hz.
    discriminate.
Qed.

Lemma py_truediv_100_raises (a : pynum) :
  raises_only P (py_truediv a (PInt 100)).
Proof.
  apply py_truediv_raises with (fk := S754_finite false 7036874417766400 (-46));
    [lia | reflexivity | reflexivity].
Qed.

Lemma py_truediv_12_raises (a : pynum) :
  raises_only P (py_truediv a (PInt 12)).
Proof.
  apply py_truediv_raises with (fk := S754_finite false 6755399441055744 (-49));
    [lia | reflexivity | reflexivity].
Qed.

Lemma py_int_raises (f : spec_float) : raises_only P (py_int f).
Proof.
  intros e. destruct f; simpl; intros H; inversion H; subst; assumption.
Qed.

Ltac raises_step :=
  first
    [ apply raises_only_Ok
    | apply py_int_raises
    | apply py_truediv_100_raises
    | apply py_truediv_12_raises
    | apply py_add_raises
    | apply py_mul_raises
    | apply float_binop_raises
    | (apply raises_only_bind; [|intros ? ?]) ].

Variable cfg : config.

Lemma base_users_raises : raises_only P (base_users cfg).
Proof. unfold base_users. repeat raises_step. Qed.

Lemma users_of_raises a pct : raises_only P (users_of a pct).
Proof. unfold users_of, fmul. repeat raises_step. Qed.

Lemma fee_of_raises deposit fee_pct : raises_only P (fee_of deposit fee_pct).
Proof. unfold fee_of, fmul. repeat raises_step. Qed.

Lemma nii_of_raises deposit users : raises_only P (nii_of cfg deposit users).
Proof. unfold nii_of, monthly_rate, fmul. repeat raises_step. Qed.

Lemma defaults_of_raises users : raises_only P (defaults_of cfg users).
Proof. unfold defaults_of. repeat raises_step. Qed.

Lemma pre_loss_of_raises pre deposit :
  raises_only P (pre_loss_of cfg pre deposit).
Proof. unfold pre_loss_of, penalty_factor, fmul, fsub. repeat raises_step. Qed.

Lemma profit_of_raises f users nii pl post :
  raises_only P (profit_of f users nii pl post).
Proof. unfold profit_of, fmul, fsub. repeat raises_step. Qed.

Lemma grow_raises a : raises_only P (grow cfg a).
Proof. unfold grow, fmul, fadd. repeat raises_step. Qed.

Lemma tam_ceiling_raises : raises_only P (tam_ceiling cfg).
Proof. unfold tam_ceiling. repeat raises_step. Qed.

Variable durations : list Z.
Variable slab_map : dict (dict pynum).
Variable slot_fees : dict (dict slot_setting).
Hypothesis keys : keyed durations slab_map slot_fees \/ P KeyError.

Lemma getitem_raises {V : Type} (d : dict V) (k : Z) (e : exn) :
  getitem d k = Raise e -> e = KeyError.
Proof.
  induction d as [|[k' v] d IH]; simpl.
  - intros H; inversion H; reflexivity.
  - destruct (k =? k'); [discriminate | exact IH].
Qed.

Lemma slot_body_raises m d slab users slot fc :
  In d durations -> 1 <= slot <= d ->
  raises_only P (slot_body cfg slot_fees m d slab users slot fc).
Proof.
  intros Hd Hslot. unfold slot_body.
  apply raises_only_bind.
  { intros e H. pose proof (getitem_raises _ _ _ H). subst e.
    destruct keys as [Hk|Hk]; [|exact Hk].
    destruct (Hk d Hd) as (_ & row & Hrow & _).
    rewrite Hrow in H. discriminate. }
  intros row Hrow.
  apply raises_only_bind.
  { intros e H. pose proof (getitem_raises _ _ _ H). subst e.
    destruct keys as [Hk|Hk]; [|exact Hk].
    destruct (Hk d Hd) as (_ & row' & Hrow' & Hslots).
    rewrite Hrow in Hrow'. inversion Hrow'; subst row'.
    destruct (Hslots slot Hslot) as (s & Hs).
    rewrite Hs in H. discriminate. }
  intros s Hs. destruct (blocked s); [apply raises_only_Ok|].
  cbv zeta.
  apply raises_only_bind; [apply fee_of_raises|]. intros f _.
  apply raises_only_bind; [apply nii_of_raises|]. intros nii _.
  apply raises_only_bind; [apply defaults_of_raises|]. intros dflt _.
  apply raises_only_bind; [apply pre_loss_of_raises|]. intros pl _.
  apply raises_only_bind; [apply profit_of_raises|]. intros pr _.
  apply raises_only_bind; [apply float_binop_raises|]. intros fcol _.
  apply raises_only_Ok.
Qed.

Lemma duration_body_raises m a d fc :
  In d durations ->
  raises_only P (duration_body cfg slab_map slot_fees m a d fc).
Proof.
  intros Hd. unfold duration_body.
  apply raises_only_bind.
  { intros e H. pose proof (getitem_raises _ _ _ H). subst e.
    destruct keys as [Hk|Hk]; [|exact Hk].
    destruct (Hk d Hd) as ((items & Hitems) & _).
    rewrite Hitems in H. discriminate. }
  intros items _. apply for_each_raises. intros item s _.
  unfold slab_body. destruct (py_le (snd item) (PInt 0));
    [apply raises_only_Ok|].
  apply raises_only_bind; [apply users_of_raises|]. intros users _.
  apply for_each_raises. intros slot t Hslot.
  apply slot_body_raises; [exact Hd|]. apply in_range in Hslot. lia.
Qed.

Lemma month_loop_raises ms :
  forall st, raises_only P (month_loop cfg durations slab_map slot_fees ms st).
Proof.
  induction ms as [|m ms IH]; intros st; simpl.
  - apply raises_only_Ok.
  - apply raises_only_bind.
    { apply for_each_raises. intros d s Hd. apply duration_body_raises, Hd. }
    intros fc _.
    apply raises_only_bind; [apply grow_raises|]. intros a _.
    apply raises_only_bind; [apply tam_ceiling_raises|]. intros lim _.
    destruct (py_ge _ _); [apply raises_only_Ok | apply IH].
Qed.

Lemma run_forecast_raises :
  raises_only P (run_forecast cfg durations slab_map slot_fees).
Proof.
  unfold run_forecast.
  apply raises_only_bind; [apply base_users_raises|]. intros b _.
  apply raises_only_bind; [apply month_loop_raises|]. intros st _.
  apply raises_only_Ok.
Qed.

End Raises.

(** X6: run_forecast never raises ZeroDivisionError, and when slab_map has
    every selected duration and slot_fees has every slot 1..d of every
    selected duration d, it never raises KeyError either: the only
    exceptions left are those of the arithmetic, ValueError (int() of NaN)
    and OverflowError. *)
Theorem run_forecast_exceptions :
  forall cfg durations slab_map slot_fees e,
    run_forecast cfg durations slab_map slot_fees = Raise e ->
    e <> ZeroDivisionError /\
    (keyed durations slab_map slot_fees -> arithmetic_error e).
Proof.
  intros cfg durations slab_map slot_fees e H. split.
  - revert e H.
    apply (run_forecast_raises (fun e => e <> ZeroDivisionError));
      [discriminate | discriminate | right; discriminate].
  - intros Hk. revert e H.
    apply (run_forecast_raises arithmetic_error);
      [left; reflexivity | right; reflexivity | left; exact Hk].
Qed.

Lemma run_forecast_exceptions_witness :
  run_forecast
    {| total_market := PInt 20000000; tam_pct := PInt 10;
       start_pct := PInt 10; monthly_growth := PFloat S754_nan;
       yearly_growth := PInt 5; kibor := PInt 11; spread := PInt 5;
       default_rate := PInt 1; penalty_pct := PInt 10;
       fee_method := Upfront |}
    [3] scenario_slab_map scenario_slot_fees = Raise ValueError /\
  ValueError <> ZeroDivisionError /\
  (keyed [3] scenario_slab_map scenario_slot_fees ->
   arithmetic_error ValueError).
Proof.
  split; [vm_compute; reflexivity|].
  apply (run_forecast_exceptions
           {| total_market := PInt 20000000; tam_pct := PInt 10;
              start_pct := PInt 10; monthly_growth := PFloat S754_nan;
              yearly_growth := PInt 5; kibor := PInt 11; spread := PInt 5;
              default_rate := PInt 1; penalty_pct := PInt 10;
              fee_method := Upfront |}
           [3] scenario_slab_map scenario_slot_fees ValueError).
  vm_compute; reflexivity.
Defined.

(** ** Missing keys and empty tables *)

Lemma month_loop_cons cfg durations slab_map slot_fees m ms st :
  month_loop cfg durations slab_map slot_fees (m :: ms) st =
  (fc <- for_each durations
           (duration_body cfg slab_map slot_fees m (active_users st))
           (forecast st) ;;
   a <- grow cfg (active_users st) ;;
   lim <- tam_ceiling cfg ;;
   if py_ge (PInt (tam_used st + a)) (PFloat lim)
   then Ok {| forecast := fc; active_users := a;
              tam_used := tam_used st + a |}
   else month_loop cfg durations slab_map slot_fees ms
          {| forecast := fc; active_users := a;
             tam_used := tam_used st + a |}).
Proof. reflexivity. Qed.

(** X7: when a selected duration is missing from slab_map, run_forecast
    returns no table; it raises KeyError as soon as base_users is computed
    when the missing duration is the first one selected. *)
Theorem run_forecast_missing_duration :
  forall cfg durations slab_map slot_fees d,
    In d durations ->
    getitem slab_map d = Raise KeyError ->
    (forall df, run_forecast cfg durations slab_map slot_fees <> Ok df) /\
    (forall b rest,
       base_users cfg = Ok b -> durations = d :: rest ->
       run_forecast cfg durations slab_map slot_fees = Raise KeyError).
Proof.
  intros cfg durations slab_map slot_fees d Hd Hmiss. split.
  - intros df H. unfold run_forecast in H.
    bind_inv H b Eb. bind_inv H st Est. rewrite range_months in Est.
    rewrite month_loop_cons in Est. bind_inv Est fc Efc.
    cbn [active_users forecast initial_state] in Efc.
    destruct (for_each_visit durations
                (duration_body cfg slab_map slot_fees 1 b) d)
      with (s := @nil record) (s' := fc) as (s1 & s2 & Hdur & _);
      [intros; eapply duration_body_extends; eauto | exact Hd | exact Efc |].
    unfold duration_body in Hdur. rewrite Hmiss in Hdur. discriminate.
  - intros b rest Hb ->. unfold run_forecast. rewrite Hb. cbn [bind].
    rewrite range_months, month_loop_cons.
    cbn [active_users forecast initial_state for_each].
    unfold duration_body at 1. rewrite Hmiss. reflexivity.
Qed.

Lemma run_forecast_missing_duration_witness :
  In 4 [4; 3] /\
  getitem scenario_slab_map 4 = Raise KeyError /\
  (forall df, run_forecast scenario_config [4; 3] scenario_slab_map
                scenario_slot_fees <> Ok df) /\
  (forall b rest,
     base_users scenario_config = Ok b -> [4; 3] = 4 :: rest ->
     run_forecast scenario_config [4; 3] scenario_slab_map
       scenario_slot_fees = Raise KeyError).
Proof.
  split; [left; reflexivity|]. split; [reflexivity|].
  apply (run_forecast_missing_duration scenario_config [4; 3]
           scenario_slab_map scenario_slot_fees 4).
  - left; reflexivity.
  - reflexivity.
Defined.

Lemma run_forecast_table cfg durations slab_map slot_fees df :
  run_forecast cfg durations slab_map slot_fees = Ok df ->
  df = pd_DataFrame (rows df).
Proof.
  unfold run_forecast. intros H. bind_inv H b Eb. bind_inv H st Est.
  inversion H; subst. reflexivity.
Qed.

Lemma forecast_rows_empty cfg durations slab_map slot_fees df :
  run_forecast cfg durations slab_map slot_fees = Ok df ->
  no_positive_slab durations slab_map \/ all_blocked durations slot_fees ->
  rows df = [].
Proof.
  intros H Hnone.
  destruct (rows df) as [|r l] eqn:E; [reflexivity|]. exfalso.
  destruct (rows_origin _ _ _ _ _ H r) as (i & a & t & _ & _ & _ & Hrow).
  { rewrite E. left; reflexivity. }
  destruct Hrow as (_ & _ & Hd & (items & pct & Ei & Hin & Hgt & _) & _
                    & (row & s & Er & Es & Hb & _) & _).
  destruct Hnone as [Hn|Hn].
  - specialize (Hn _ _ _ _ Hd Ei Hin).
    apply py_gt_not_le in Hgt. congruence.
  - specialize (Hn _ _ _ _ Hd Er Es). congruence.
Qed.

(** X8: when no slab of the selected durations has a percentage > 0, or
    every slot of them is blocked (in particular when no duration is
    selected), a run that returns gives the table of no row, which has no
    column. *)
Theorem run_forecast_empty_table :
  forall cfg durations slab_map slot_fees df,
    run_forecast cfg durations slab_map slot_fees = Ok df ->
    no_positive_slab durations slab_map \/ all_blocked durations slot_fees ->
    df = pd_DataFrame [] /\ rows df = [] /\ columns df = [].
Proof.
  intros cfg durations slab_map slot_fees df H Hnone.
  pose proof (forecast_rows_empty _ _ _ _ _ H Hnone) as Hrows.
  apply run_forecast_table in H. rewrite Hrows in H.
  subst df. auto.
Qed.

Lemma run_forecast_empty_table_witness :
  run_forecast scenario_config [3] [(3, [(1000, PFloat (S754_zero false))])]
    scenario_slot_fees = Ok (pd_DataFrame []) /\
  (no_positive_slab [3] [(3, [(1000, PFloat (S754_zero false))])] \/
   all_blocked [3] scenario_slot_fees) /\
  pd_DataFrame [] = pd_DataFrame [] /\
  rows (pd_DataFrame []) = [] /\ columns (pd_DataFrame []) = [].
Proof.
  assert (Hn : no_positive_slab [3] [(3, [(1000, PFloat (S754_zero false))])]).
  { intros d items slab pct Hd Hi Hin. simpl in Hi.
    destruct (d =? 3); [|discriminate]. inversion Hi; subst items.
    destruct Hin as [Hin|[]]. inversion Hin; subst. reflexivity. }
  split; [vm_compute; reflexivity|]. split; [left; exact Hn|].
  apply (run_forecast_empty_table scenario_config [3]
           [(3, [(1000, PFloat (S754_zero false))])] scenario_slot_fees
           (pd_DataFrame [])).
  - vm_compute; reflexivity.
  - left; exact Hn.
Defined.

Lemma groupby_sum_keys (name : string) (col : record -> Z)
    (df : DataFrame) (t : list summary) :
  groupby_sum name col df = Ok t -> one_row_per_key col (rows df) t.
Proof.
  intros H. apply groupby_sum_grouped in H.
  destruct H as (Hs & Hk & _). split; assumption.
Qed.

(** X9: the application flow shows a warning and computes nothing when no
    duration is selected; otherwise, on the table run_forecast returns, it
    raises KeyError when the table has no row, and when the table has a row
    it yields the table with the monthly and yearly summaries of it, which
    have one row per distinct Month, respectively Year, of the table, in
    ascending order. *)
Theorem main_flow :
  forall cfg durations slab_map slot_fees df,
    durations <> [] ->
    run_forecast cfg durations slab_map slot_fees = Ok df ->
    main cfg [] slab_map slot_fees = Ok None /\
    (rows df = [] ->
       main cfg durations slab_map slot_fees = Raise KeyError) /\
    (rows df <> [] ->
       exists m y,
         main cfg durations slab_map slot_fees = Ok (Some (df, m, y)) /\
         monthly_summary df = Ok m /\
         yearly_summary df = Ok y /\
         one_row_per_key Month (rows df) m /\
         one_row_per_key Year (rows df) y).
Proof.
  intros cfg durations slab_map slot_fees df Hne H.
  split; [reflexivity|].
  pose proof (run_forecast_table _ _ _ _ _ H) as Hdf.
  destruct durations as [|d ds]; [congruence|].
  unfold main. rewrite H. cbn [bind]. split.
  - intros Hrows. rewrite Hdf, Hrows. reflexivity.
  - intros Hrows.
    assert (Hm : exists m, monthly_summary df = Ok m).
    { rewrite Hdf. destruct (rows df); [congruence|].
      unfold monthly_summary, groupby_sum. simpl. eexists; reflexivity. }
    assert (Hy : exists y, yearly_summary df = Ok y).
    { rewrite Hdf. destruct (rows df); [congruence|].
      unfold yearly_summary, groupby_sum. simpl. eexists; reflexivity. }
    destruct Hm as (m & Em). destruct Hy as (y & Ey).
    exists m, y. rewrite Em. cbn [bind]. rewrite Ey. cbn [bind].
    split; [reflexivity|]. split; [reflexivity|]. split; [reflexivity|].
    split; eapply groupby_sum_keys; eauto.
Qed.

Lemma main_flow_witness :
  [3] <> [] /\
  scenario_forecast = Ok scenario_table /\
  main scenario_config [] scenario_slab_map scenario_slot_fees = Ok None /\
  (rows scenario_table = [] ->
     main scenario_config [3] scenario_slab_map scenario_slot_fees
       = Raise KeyError) /\
  (rows scenario_table <> [] ->
     exists m y,
       main scenario_config [3] scenario_slab_map scenario_slot_fees
         = Ok (Some (scenario_table, m, y)) /\
       monthly_summary scenario_table = Ok m /\
       yearly_summary scenario_table = Ok y /\
       one_row_per_key Month (rows scenario_table) m /\
       one_row_per_key Year (rows scenario_table) y).
Proof.
  split; [discriminate|]. split; [vm_compute; reflexivity|].
  apply (main_flow scenario_config [3] scenario_slab_map scenario_slot_fees
           scenario_table).
  - discriminate.
  - vm_compute; reflexivity.
Defined.

(** ** Summaries of a forecast *)

Lemma sorted_bounded_length (l : list Z) :
  StronglySorted Z.lt l ->
  forall lo hi,
    Forall (fun x => lo <= x <= hi) l ->
    Z.of_nat (List.length l) <= Z.max 0 (hi - lo + 1).
Proof.
  induction 1 as [|x l Hs IH Hall]; intros lo hi Hb.
  - simpl. lia.
  - inversion Hb as [|? ? Hx Hl]; subst.
    assert (Hl' : Forall (fun y => x + 1 <= y <= hi) l).
    { rewrite Forall_forall in *. intros y Hy.
      specialize (Hall y Hy). specialize (Hl y Hy). lia. }
    specialize (IH (x + 1) hi Hl').
    change (List.length (x :: l)) with (S (List.length l)). lia.
Qed.

Lemma grouped_bounds (col : record -> Z) (data : list record)
    (t : list summary) (lo hi : Z) :
  grouped col data t ->
  (forall r, In r data -> lo <= col r <= hi) ->
  Z.of_nat (List.length t) <= Z.max 0 (hi - lo + 1) /\
  forall s, In s t -> lo <= key s <= hi.
Proof.
  intros (Hs & Hk & _) Hb.
  assert (Hkeys : Forall (fun x => lo <= x <= hi) (map key t)).
  { apply Forall_forall. intros k Hin. apply Hk in Hin.
    destruct Hin as (r & Hr & <-). apply Hb, Hr. }
  split.
  - rewrite <- (length_map key t). apply sorted_bounded_length; assumption.
  - intros s Hin. rewrite Forall_forall in Hkeys. apply Hkeys.
    apply in_map. exact Hin.
Qed.

(** X10: the monthly summary of a forecast has at most 60 rows, with keys
    between 1 and 60, and its yearly summary at most 5 rows, with keys
    between 1 and 5. *)
Theorem summaries_of_forecast_bounded :
  forall cfg durations slab_map slot_fees df m y,
    run_forecast cfg durations slab_map slot_fees = Ok df ->
    monthly_summary df = Ok m ->
    yearly_summary df = Ok y ->
    ((List.length m <= 60)%nat /\ forall s, In s m -> 1 <= key s <= 60) /\
    ((List.length y <= 5)%nat /\ forall s, In s y -> 1 <= key s <= 5).
Proof.
  intros cfg durations slab_map slot_fees df m y H Hm Hy.
  assert (Hrows : forall r, In r (rows df) ->
            1 <= Month r <= 60 /\ 1 <= Year r <= 5).
  { intros r Hr.
    destruct (rows_origin _ _ _ _ _ H r Hr)
      as (i & a & t & Hi & HM & _ & Hrow).
    destruct Hrow as (_ & HY & _).
    assert (1 <= Month r <= 60) by lia.
    split; [assumption|].
    assert (0 <= (Month r - 1) / 12) by (apply Z.div_pos; lia).
    assert ((Month r - 1) / 12 < 5)
      by (apply Z.div_lt_upper_bound; lia).
    lia. }
  apply groupby_sum_grouped in Hm. apply groupby_sum_grouped in Hy.
  destruct (grouped_bounds Month (rows df) m 1 60 Hm) as [Hlm Hkm];
    [intros r Hr; apply Hrows, Hr|].
  destruct (grouped_bounds Year (rows df) y 1 5 Hy) as [Hly Hky];
    [intros r Hr; apply Hrows, Hr|].
  repeat split; try (apply Hkm; assumption); try (apply Hky; assumption); lia.
Qed.

Lemma summaries_of_forecast_bounded_witness :
  scenario_forecast = Ok scenario_table /\
  exists m y,
    monthly_summary scenario_table = Ok m /\
    yearly_summary scenario_table = Ok y /\
    ((List.length m <= 60)%nat /\ forall s, In s m -> 1 <= key s <= 60) /\
    ((List.length y <= 5)%nat /\ forall s, In s y -> 1 <= key s <= 5).
Proof.
  split; [vm_compute; reflexivity|].
  eexists. eexists.
  split; [vm_compute; reflexivity|]. split; [vm_compute; reflexivity|].
  eapply (summaries_of_forecast_bounded scenario_config [3]
            scenario_slab_map scenario_slot_fees scenario_table).
  - vm_compute; reflexivity.
  - vm_compute; reflexivity.
  - vm_compute; reflexivity.
Defined.

Lemma sum_int_nil : sum_int [] = 0.
Proof. reflexivity. Qed.

Lemma sum_int_map_add {A : Type} (f g : A -> Z) (l : list A) :
  sum_int (map (fun k => f k + g k) l) =
  sum_int (map f l) + sum_int (map g l).
Proof.
  induction l as [|a l IH]; simpl.
  - reflexivity.
  - rewrite !sum_int_cons, IH. lia.
Qed.

Lemma sum_int_indicator (c u : Z) (keys : list Z) :
  NoDup keys ->
  sum_int (map (fun k => if c =? k then u else 0) keys) =
  if existsb (Z.eqb c) keys then u else 0.
Proof.
  induction 1 as [|k keys Hnotin Hnd IH]; simpl.
  - reflexivity.
  - rewrite sum_int_cons, IH.
    destruct (Z.eqb_spec c k) as [->|Hne]; simpl.
    + destruct (existsb (Z.eqb k) keys) eqn:E; [|lia].
      apply existsb_exists in E. destruct E as (x & Hx & Hxk).
      apply Z.eqb_eq in Hxk. subst x. contradiction.
    + reflexivity.
Qed.

Lemma group_sum_partition (col : record -> Z) (keys : list Z) :
  NoDup keys ->
  forall data,
    (forall r, In r data -> In (col r) keys) ->
    sum_int (map (fun k => sum_int (map Users (group_of col k data))) keys) =
    sum_int (map Users data).
Proof.
  intros Hnd. induction data as [|r data IH]; intros Hin.
  - change (sum_int (map (fun _ : Z => 0) keys) = 0).
    clear Hnd Hin. induction keys as [|k keys IHk]; [reflexivity|].
    cbn [map]. rewrite sum_int_cons, IHk. reflexivity.
  - rewrite (map_ext _
       (fun k => (if col r =? k then Users r else 0) +
                 sum_int (map Users (group_of col k data)))).
    + rewrite sum_int_map_add, sum_int_indicator by exact Hnd.
      rewrite IH by (intros; apply Hin; right; assumption).
      simpl map. rewrite sum_int_cons.
      assert (E : existsb (Z.eqb (col r)) keys = true).
      { apply existsb_exists. exists (col r).
        split; [apply Hin; left; reflexivity | apply Z.eqb_refl]. }
      rewrite E. reflexivity.
    + intros k. unfold group_of. simpl.
      destruct (col r =? k); simpl; [rewrite sum_int_cons|]; lia.
Qed.

Lemma sorted_NoDup (l : list Z) : StronglySorted Z.lt l -> NoDup l.
Proof.
  induction 1 as [|x l Hs IH Hall]; constructor; [|exact IH].
  intros Hin. rewrite Forall_forall in Hall. specialize (Hall x Hin). lia.
Qed.

Lemma sum_int_nonneg (xs : list Z) :
  Forall (fun x => 0 <= x) xs -> 0 <= sum_int xs.
Proof.
  induction 1 as [|x xs Hx Hxs IH]; [rewrite sum_int_nil; lia|].
  rewrite sum_int_cons. lia.
Qed.

Lemma sum_int_filter_le (p : record -> bool) (data : list record) :
  (forall r, In r data -> 0 <= Users r) ->
  0 <= sum_int (map Users (filter p data)) <= sum_int (map Users data).
Proof.
  induction data as [|r data IH]; intros Hpos; simpl.
  - rewrite sum_int_nil. lia.
  - assert (H0 : 0 <= Users r) by (apply Hpos; left; reflexivity).
    assert (IH' := IH (fun r' Hr' => Hpos r' (or_intror Hr'))).
    destruct (p r); simpl; rewrite ?sum_int_cons; lia.
Qed.

Lemma wrap_int64_small (z : Z) :
  - 2 ^ 63 <= z < 2 ^ 63 -> wrap_int64 z = z.
Proof.
  intros Hz. unfold wrap_int64.
  assert (H63 : 2 ^ 63 = 9223372036854775808) by reflexivity.
  assert (H64 : 2 ^ 64 = 18446744073709551616) by reflexivity.
  rewrite H63, H64 in *. rewrite Z.mod_small; lia.
Qed.

Lemma int64_sum_exact (xs : list Z) :
  Forall (fun x => 0 <= x) xs ->
  forall acc,
    0 <= acc -> acc + sum_int xs < 2 ^ 63 ->
    fold_left (fun a x => wrap_int64 (a + x)) xs acc = acc + sum_int xs.
Proof.
  induction 1 as [|x xs Hx Hxs IH]; intros acc Hacc Hlt; simpl.
  - rewrite sum_int_nil. lia.
  - rewrite sum_int_cons in Hlt.
    pose proof (sum_int_nonneg xs Hxs) as Hs.
    assert (H63 : 2 ^ 63 = 9223372036854775808) by reflexivity.
    rewrite wrap_int64_small by (rewrite H63 in *; lia).
    rewrite IH by lia. rewrite sum_int_cons. lia.
Qed.

Lemma column_dtype_int64 (xs : list Z) :
  Forall (fun x => 0 <= x < 2 ^ 63) xs -> column_dtype xs = Int64.
Proof.
  intros H. unfold column_dtype.
  replace (forallb in_int64 xs) with true; [reflexivity|].
  symmetry. apply forallb_forall. intros x Hx.
  rewrite Forall_forall in H. specialize (H x Hx).
  unfold in_int64. apply andb_true_iff.
  assert (H63 : 2 ^ 63 = 9223372036854775808) by reflexivity.
  rewrite H63 in *. split; [apply Z.leb_le | apply Z.ltb_lt]; lia.
Qed.

Lemma In_le_sum_int (xs : list Z) (x : Z) :
  Forall (fun y => 0 <= y) xs -> In x xs -> x <= sum_int xs.
Proof.
  induction 1 as [|y xs Hy Hxs IH]; intros Hin; [contradiction|].
  rewrite sum_int_cons. pose proof (sum_int_nonneg xs Hxs).
  destruct Hin as [->|Hin]; [lia|]. specialize (IH Hin). lia.
Qed.

Lemma groupby_sum_users (name : string) (col : record -> Z)
    (df : DataFrame) (t : list summary) :
  groupby_sum name col df = Ok t ->
  (forall r, In r (rows df) -> 0 <= Users r) ->
  total_users (rows df) < 2 ^ 63 ->
  sum_int (map sum_Users t) = total_users (rows df).
Proof.
  unfold groupby_sum.
  destruct (negb (has_column df name)); [discriminate|].
  destruct (negb (forallb _ _)); [discriminate|].
  intros H Hpos Htot; inversion H; subst t; clear H.
  assert (Hall : Forall (fun x => 0 <= x) (map Users (rows df))).
  { rewrite Forall_map. apply Forall_forall. exact Hpos. }
  assert (Hdt : column_dtype (map Users (rows df)) = Int64).
  { apply column_dtype_int64. apply Forall_forall. intros x Hx.
    pose proof (In_le_sum_int _ _ Hall Hx) as Hle.
    rewrite Forall_forall in Hall. specialize (Hall x Hx).
    unfold total_users in Htot. lia. }
  rewrite map_map. cbn [sum_Users summary_of]. rewrite Hdt.
  rewrite (map_ext _
     (fun k => sum_int (map Users (group_of col k (rows df))))).
  - apply group_sum_partition.
    + apply sorted_NoDup, group_keys_sorted.
    + intros r Hr. apply group_keys_In. exists r; auto.
  - intros k. unfold group_sum_int, group_of.
    pose proof (sum_int_filter_le (fun r => col r =? k) (rows df) Hpos) as Hg.
    rewrite int64_sum_exact.
    + lia.
    + rewrite Forall_map. apply Forall_forall. intros r Hr.
      apply filter_In in Hr. apply Hpos, Hr.
    + lia.
    + unfold total_users in Htot. lia.
Qed.

(** The sums of a 64-bit column wrap around, and the float sums are
    compensated: 0.1 + 0.2 + 0.3 comes out as the float nearest 0.6, which
    the plain left-to-right sum misses by one unit in the last place. *)
Example group_sum_int_wraps :
  column_dtype [5000000000000000000; 5000000000000000000;
                5000000000000000000] = Int64 /\
  group_sum_int Int64 [5000000000000000000; 5000000000000000000;
                       5000000000000000000] = -3446744073709551616.
Proof. split; vm_compute; reflexivity. Qed.

Example group_sum_float_compensated :
  group_sum_float [hundredths 10; hundredths 20; hundredths 30]
    = hundredths 60 /\
  fold_left (SFadd prec emax) [hundredths 10; hundredths 20; hundredths 30]
    (S754_zero false) <> hundredths 60 /\
  group_sum_float [S754_nan; hundredths 10] = hundredths 10 /\
  group_sum_float [S754_infinity false; hundredths 10] = S754_infinity false.
Proof.
  split; [vm_compute; reflexivity|].
  split; [vm_compute; discriminate|].
  split; vm_compute; reflexivity.
Qed.

(** X11: grouping loses no user as long as the 64-bit sums do not
    overflow: when no row has negative Users and the Users of the table add
    up to less than 2^63, the Users entries of the monthly summary add up to
    the sum of Users over all rows of the table, and so do those of the
    yearly summary. *)
Theorem summaries_conserve_users :
  forall df m y,
    monthly_summary df = Ok m ->
    yearly_summary df = Ok y ->
    (forall r, In r (rows df) -> 0 <= Users r) ->
    total_users (rows df) < 2 ^ 63 ->
    sum_int (map sum_Users m) = total_users (rows df) /\
    sum_int (map sum_Users y) = total_users (rows df).
Proof.
  intros df m y Hm Hy Hpos Htot. split.
  - eapply groupby_sum_users; eauto.
  - eapply groupby_sum_users; eauto.
Qed.

Lemma summaries_conserve_users_witness :
  exists m y,
    monthly_summary scenario_table = Ok m /\
    yearly_summary scenario_table = Ok y /\
    (forall r, In r (rows scenario_table) -> 0 <= Users r) /\
    total_users (rows scenario_table) < 2 ^ 63 /\
    sum_int (map sum_Users m) = total_users (rows scenario_table) /\
    sum_int (map sum_Users y) = total_users (rows scenario_table).
Proof.
  assert (Hpos : forall r, In r (rows scenario_table) -> 0 <= Users r).
  { assert (H : forallb (fun r => 0 <=? Users r) (rows scenario_table) = true)
      by (vm_compute; reflexivity).
    intros r Hr. rewrite forallb_forall in H. apply Z.leb_le, H, Hr. }
  assert (Htot : total_users (rows scenario_table) < 2 ^ 63)
    by (vm_compute; reflexivity).
  eexists. eexists.
  split; [vm_compute; reflexivity|]. split; [vm_compute; reflexivity|].
  split; [exact Hpos|]. split; [exact Htot|].
  apply (summaries_conserve_users scenario_table).
  - vm_compute; reflexivity.
  - vm_compute; reflexivity.
  - exact Hpos.
  - exact Htot.
Defined.

(** ** More on validate_slab_total *)

Lemma py_sum_from_int_values (zs : list Z) :
  forall z, py_sum_from (PInt z) (map PInt zs) = Ok (PInt (z + sum_int zs)).
Proof.
  induction zs as [|x zs IH]; intros z; simpl.
  - rewrite sum_int_nil, Z.add_0_r. reflexivity.
  - rewrite IH, sum_int_cons. f_equal. f_equal. lia.
Qed.

(** X12: on a mapping whose percentages are all integers,
    validate_slab_total returns true exactly when they add up to 100. *)
Theorem validate_slab_total_integers :
  forall alloc : list (Z * Z),
    validate_slab_total (map (fun kv => (fst kv, PInt (snd kv))) alloc) =
    Ok (sum_int (map snd alloc) =? 100).
Proof.
  intros alloc. unfold validate_slab_total, py_sum.
  rewrite map_map. cbn [snd].
  rewrite <- (map_map snd PInt), py_sum_from_int_values. cbn [bind py_sub].
  f_equal. rewrite Z.add_0_l.
  set (d := sum_int (map snd alloc)).
  unfold py_lt, py_abs, py_compare, compare_int_float, float_0_01, cond_Zopp.
  assert (Hp : 2 ^ Z.pos 59 = 576460752303423488) by reflexivity.
  rewrite Hp.
  destruct (Z.compare_spec (Z.abs (d - 100) * 576460752303423488)
                           (Z.pos 5764607523034235));
    destruct (Z.eqb_spec d 100); try reflexivity; lia.
Qed.

Lemma SFadd_nan_r (x : spec_float) : SFadd prec emax x S754_nan = S754_nan.
Proof. destruct x; reflexivity. Qed.

Lemma py_sum_from_nan (xs : list pynum) :
  Forall (fun v => is_float v = true) xs ->
  py_sum_from (PFloat S754_nan) xs = Ok (PFloat S754_nan).
Proof.
  induction 1 as [|x xs Hx Hxs IH]; simpl; [reflexivity|].
  destruct x as [z|f]; [discriminate|]. simpl. exact IH.
Qed.

Lemma py_sum_from_with_nan (xs : list pynum) :
  Forall (fun v => is_float v = true) xs ->
  In (PFloat S754_nan) xs ->
  forall acc, acc = PInt 0 \/ is_float acc = true ->
  py_sum_from acc xs = Ok (PFloat S754_nan).
Proof.
  induction 1 as [|x xs Hx Hxs IH]; simpl; intros Hin acc Hacc;
    [contradiction|].
  destruct x as [z|f]; [discriminate|].
  assert (Hadd : exists g, py_add acc (PFloat f) = Ok (PFloat g) /\
                           (f = S754_nan -> g = S754_nan)).
  { destruct Hacc as [->|Hacc].
    - exists (SFadd prec emax (S754_zero false) f). split; [reflexivity|].
      intros ->; reflexivity.
    - destruct acc as [z|g]; [discriminate|].
      exists (SFadd prec emax g f). split; [reflexivity|].
      intros ->; apply SFadd_nan_r. }
  destruct Hadd as (g & Eg & Hg). rewrite Eg. cbn [bind].
  destruct Hin as [Hin|Hin].
  - inversion Hin; subst f. rewrite Hg by reflexivity.
    apply py_sum_from_nan. exact Hxs.
  - apply IH; [exact Hin | right; reflexivity].
Qed.

(** X13: on a mapping of float percentages one of which is NaN,
    validate_slab_total does not raise and returns false. *)
Theorem validate_slab_total_nan :
  forall (slab_alloc : dict pynum) (slab : Z),
    Forall (fun kv => is_float (snd kv) = true) slab_alloc ->
    In (slab, PFloat S754_nan) slab_alloc ->
    validate_slab_total slab_alloc = Ok false.
Proof.
  intros slab_alloc slab Hf Hin.
  unfold validate_slab_total, py_sum.
  rewrite (py_sum_from_with_nan (map snd slab_alloc)).
  - reflexivity.
  - rewrite Forall_map. exact Hf.
  - change (PFloat S754_nan) with (snd (slab, PFloat S754_nan)).
    apply in_map. exact Hin.
  - left; reflexivity.
Qed.

Lemma validate_slab_total_nan_witness :
  Forall (fun kv => is_float (snd kv) = true)
    [(1000, PFloat (float_lit 100)); (2000, PFloat S754_nan)] /\
  In (2000, PFloat S754_nan)
    [(1000, PFloat (float_lit 100)); (2000, PFloat S754_nan)] /\
  validate_slab_total
    [(1000, PFloat (float_lit 100)); (2000, PFloat S754_nan)] = Ok false.
Proof.
  split; [repeat constructor|].
  split; [right; left; reflexivity|].
  apply (validate_slab_total_nan _ 2000).
  - repeat constructor.
  - right; left; reflexivity.
Defined.

(** ** Counts are not negative *)

Lemma SFadd_sign (x y : spec_float) :
  sign_clear x = true -> sign_clear y = true ->
  sign_clear (SFadd prec emax x y) = true.
Proof.
  intros Hx Hy.
  destruct x as [sx|sx| |sx mx ex]; destruct y as [sy|sy| |sy my ey];
    try reflexivity; cbn [sign_clear] in Hx, Hy;
    try (destruct sx; [discriminate Hx|]);
    try (destruct sy; [discriminate Hy|]);
    try reflexivity.
  unfold SFadd.
  destruct (shl_align mx ex (Z.min ex ey)) as [m1 e1].
  destruct (shl_align my ey (Z.min ex ey)) as [m2 e2].
  cbn [fst cond_Zopp Z.add]. unfold binary_normalize, binary_round.
  destruct (shl_align _ _ _) as [mz ez].
  apply binary_round_aux_sign.
Qed.

Lemma to_float_sign (x : pynum) (f : spec_float) :
  sign_clear_num x = true -> to_float x = Ok f -> sign_clear f = true.
Proof.
  destruct x as [z|g]; simpl; intros Hx H.
  - eapply float_of_int_sign; [|exact H]. lia.
  - inversion H; subst; exact Hx.
Qed.

Lemma float_binop_sign op (a b : pynum) (f : spec_float) :
  (forall x y, sign_clear x = true -> sign_clear y = true ->
               sign_clear (op x y) = true) ->
  sign_clear_num a = true -> sign_clear_num b = true ->
  float_binop op a b = Ok f -> sign_clear f = true.
Proof.
  intros Hop Ha Hb H. unfold float_binop in H.
  bind_inv H fa Ea. bind_inv H fb Eb. inversion H; subst f.
  apply Hop;
    [eapply to_float_sign; [exact Ha | exact Ea]
    | eapply to_float_sign; [exact Hb | exact Eb]].
Qed.

Lemma py_mul_sign (a b c : pynum) :
  sign_clear_num a = true -> sign_clear_num b = true ->
  py_mul a b = Ok c -> sign_clear_num c = true.
Proof.
  intros Ha Hb H.
  destruct a as [x|f], b as [y|g]; unfold py_mul in H.
  - inversion H; subst c. simpl in *.
    apply Z.leb_le. apply Z.mul_nonneg_nonneg; lia.
  - bind_inv H r Er. inversion H; subst c.
    eapply (float_binop_sign _ _ _ _ SFmul_sign); [| |exact Er]; assumption.
  - bind_inv H r Er. inversion H; subst c.
    eapply (float_binop_sign _ _ _ _ SFmul_sign); [| |exact Er]; assumption.
  - bind_inv H r Er. inversion H; subst c.
    eapply (float_binop_sign _ _ _ _ SFmul_sign); [| |exact Er]; assumption.
Qed.

Lemma truediv_sign (x : pynum) (q : spec_float) :
  sign_clear_num x = true ->
  py_truediv x (PInt 100) = Ok q ->
  sign_clear q = true.
Proof.
  intros Hx H. destruct x as [z|f].
  - unfold py_truediv in H. simpl (100 =? 0) in H. cbv iota in H.
    assert (Hs : sign_clear (SFdiv prec emax (exact_int z) (exact_int 100))
                 = true).
    { apply SFdiv_sign; [|reflexivity].
      simpl in Hx. destruct z; try reflexivity. discriminate. }
    destruct (SFdiv prec emax (exact_int z) (exact_int 100));
      inversion H; subst; exact Hs.
  - unfold py_truediv in H. bind_inv H fa Ea. bind_inv H fb Eb.
    inversion Ea; subst fa.
    assert (Hb : sign_clear fb = true)
      by (eapply float_of_int_sign; [|exact Eb]; lia).
    destruct (is_zero fb); [discriminate|].
    inversion H; subst q. apply SFdiv_sign; assumption.
Qed.

Lemma py_int_nonneg (p : spec_float) (z : Z) :
  sign_clear p = true -> py_int p = Ok z -> 0 <= z.
Proof.
  destruct p as [s|s| |s m e]; simpl; intros Hs H; try discriminate.
  - inversion H; lia.
  - destruct s; [discriminate|]. inversion H; subst z.
    unfold cond_Zopp. apply Z.shiftl_nonneg. lia.
Qed.

Lemma sign_clear_num_int (z : Z) : 0 <= z -> sign_clear_num (PInt z) = true.
Proof. intros; simpl; apply Z.leb_le; assumption. Qed.

Lemma base_users_nonneg cfg b :
  sign_clear_num (total_market cfg) = true ->
  sign_clear_num (tam_pct cfg) = true ->
  sign_clear_num (start_pct cfg) = true ->
  base_users cfg = Ok b -> 0 <= b.
Proof.
  intros Ht Hp Hs H. unfold base_users in H.
  bind_inv H x Ex. bind_inv H q1 E1. bind_inv H q2 E2.
  eapply py_int_nonneg; [|exact H].
  apply SFmul_sign.
  - eapply truediv_sign; [|exact E1].
    eapply py_mul_sign; [exact Ht | exact Hp | exact Ex].
  - eapply truediv_sign; [exact Hs | exact E2].
Qed.

Lemma grow_nonneg cfg a a' :
  sign_clear_num (monthly_growth cfg) = true ->
  0 <= a -> grow cfg a = Ok a' -> 0 <= a'.
Proof.
  intros Hg Ha H. unfold grow in H.
  bind_inv H g Eg. bind_inv H k Ek. bind_inv H p Ep.
  eapply py_int_nonneg; [|exact H].
  assert (Hgs : sign_clear g = true)
    by (eapply truediv_sign; [exact Hg | exact Eg]).
  assert (Hk : sign_clear k = true).
  { eapply (float_binop_sign _ _ _ _ SFadd_sign); [| |exact Ek];
      [reflexivity | exact Hgs]. }
  eapply (float_binop_sign _ _ _ _ SFmul_sign); [| |exact Ep];
    [apply sign_clear_num_int; exact Ha | exact Hk].
Qed.

Lemma advances_nonneg cfg i a0 t0 a t :
  sign_clear_num (monthly_growth cfg) = true ->
  advances cfg i a0 t0 a t -> 0 <= a0 -> 0 <= a.
Proof.
  intros Hg. induction 1 as [a t|i a0 t0 a1 lim a t Hgr Hl Hb Hrest IH];
    intros Ha; [exact Ha|].
  apply IH. eapply grow_nonneg; [exact Hg | exact Ha | exact Hgr].
Qed.

Lemma users_of_nonneg a pct u :
  0 <= a -> py_gt pct (PInt 0) = true -> users_of a pct = Ok u -> 0 <= u.
Proof.
  intros Ha Hgt H. unfold users_of in H.
  bind_inv H q Eq1. bind_inv H p Ep.
  eapply py_int_nonneg; [|exact H].
  eapply (float_binop_sign _ _ _ _ SFmul_sign); [| |exact Ep].
  - apply sign_clear_num_int; exact Ha.
  - simpl. eapply truediv_100_sign; [exact Hgt | exact Eq1].
Qed.

Lemma defaults_of_nonneg cfg u x :
  sign_clear_num (default_rate cfg) = true ->
  0 <= u -> defaults_of cfg u = Ok x -> 0 <= x.
Proof.
  intros Hd Hu H. unfold defaults_of in H.
  bind_inv H y Ey. bind_inv H q Eq1.
  eapply py_int_nonneg; [|exact H].
  eapply truediv_sign; [|exact Eq1].
  eapply py_mul_sign; [| |exact Ey]; [apply sign_clear_num_int; exact Hu|].
  exact Hd.
Qed.

(** X14: when total_market, tam_pct, start_pct and monthly_growth are not
    negative, every row of the forecast has Users >= 0; when default_rate is
    not negative either, Defaults >= 0 as well, and so are its two halves
    defaults // 2 and defaults - defaults // 2. *)
Theorem run_forecast_counts_nonnegative :
  forall cfg durations slab_map slot_fees df,
    run_forecast cfg durations slab_map slot_fees = Ok df ->
    sign_clear_num (total_market cfg) = true ->
    sign_clear_num (tam_pct cfg) = true ->
    sign_clear_num (start_pct cfg) = true ->
    sign_clear_num (monthly_growth cfg) = true ->
    forall r, In r (rows df) ->
      0 <= Users r /\
      (sign_clear_num (default_rate cfg) = true ->
         0 <= Defaults r /\
         0 <= Defaults r / 2 /\
         0 <= Defaults r - Defaults r / 2).
Proof.
  intros cfg durations slab_map slot_fees df H Ht Hp Hs Hg r Hr.
  destruct (rows_origin _ _ _ _ _ H r Hr)
    as (i & a & t & _ & _ & (b & Hb & Hadv) & Hrow).
  destruct Hrow as (_ & _ & _ & (items & pct & _ & _ & Hgt & Hu) & _ & _ & _
                    & (f & pl & _ & _ & _ & Hdf & _)).
  assert (Hb0 : 0 <= b)
    by (eapply base_users_nonneg; [exact Ht | exact Hp | exact Hs | exact Hb]).
  assert (Ha : 0 <= a)
    by (eapply advances_nonneg; [exact Hg | exact Hadv | exact Hb0]).
  assert (Hu0 : 0 <= Users r)
    by (eapply users_of_nonneg; [exact Ha | exact Hgt | exact Hu]).
  split; [exact Hu0|].
  intros Hd.
  assert (Hd0 : 0 <= Defaults r)
    by (eapply defaults_of_nonneg; [exact Hd | exact Hu0 | exact Hdf]).
  split; [exact Hd0|].
  assert (0 <= Defaults r / 2) by (apply Z.div_pos; lia).
  assert (Defaults r / 2 <= Defaults r)
    by (apply Z.div_le_upper_bound; lia).
  lia.
Qed.

Lemma run_forecast_counts_nonnegative_witness :
  scenario_forecast = Ok scenario_table /\
  forall r, In r (rows scenario_table) ->
    0 <= Users r /\
    (sign_clear_num (default_rate scenario_config) = true ->
       0 <= Defaults r /\
       0 <= Defaults r / 2 /\
       0 <= Defaults r - Defaults r / 2).
Proof.
  split; [vm_compute; reflexivity|].
  apply (run_forecast_counts_nonnegative scenario_config [3]
           scenario_slab_map scenario_slot_fees scenario_table).
  - vm_compute; reflexivity.
  - reflexivity.
  - reflexivity.
  - reflexivity.
  - reflexivity.
Defined.

(** ** The maps the configuration builds *)

Lemma getitem_setitem_eq {V : Type} (d : dict V) (k : Z) (v : V) :
  getitem (setitem d k v) k = Ok v.
Proof.
  induction d as [|[k' v'] d IH]; simpl.
  - rewrite Z.eqb_refl. reflexivity.
  - destruct (Z.eqb_spec k k') as [->|Hne]; simpl.
    + rewrite Z.eqb_refl. reflexivity.
    + destruct (Z.eqb_spec k k'); [contradiction | exact IH].
Qed.

Lemma getitem_setitem_neq {V : Type} (d : dict V) (k k' : Z) (v : V) :
  k' <> k -> getitem (setitem d k v) k' = getitem d k'.
Proof.
  intros Hne. induction d as [|[k0 v0] d IH]; simpl.
  - destruct (Z.eqb_spec k' k); [contradiction | reflexivity].
  - destruct (Z.eqb_spec k k0) as [->|Hk]; simpl.
    + destruct (Z.eqb_spec k' k0); [contradiction | reflexivity].
    + destruct (k' =? k0); [reflexivity | exact IH].
Qed.

Lemma getitem_fold_setitem {V : Type} (f : Z -> V) (l : list Z) :
  forall init k,
    getitem (fold_left (fun acc x => setitem acc x (f x)) l init) k =
    if existsb (Z.eqb k) l then Ok (f k) else getitem init k.
Proof.
  induction l as [|a l IH]; simpl; intros init k; [reflexivity|].
  rewrite IH. destruct (Z.eqb_spec k a) as [->|Hne]; simpl.
  - destruct (existsb (Z.eqb a) l); [reflexivity|].
    apply getitem_setitem_eq.
  - destruct (existsb (Z.eqb k) l); [reflexivity|].
    apply getitem_setitem_neq. exact Hne.
Qed.

Lemma existsb_range (lo hi s : Z) :
  existsb (Z.eqb s) (range lo hi) = (lo <=? s) && (s <? hi).
Proof.
  destruct (existsb (Z.eqb s) (range lo hi)) eqn:E.
  - apply existsb_exists in E. destruct E as (x & Hx & Hsx).
    apply Z.eqb_eq in Hsx. subst x. apply in_range in Hx.
    symmetry. apply andb_true_iff. split; [apply Z.leb_le | apply Z.ltb_lt]; lia.
  - destruct ((lo <=? s) && (s <? hi)) eqn:F; [|reflexivity].
    apply andb_true_iff in F. destruct F as [F1 F2].
    apply Z.leb_le in F1. apply Z.ltb_lt in F2.
    assert (Hin : In s (range lo hi)) by (apply in_range; lia).
    assert (Hex : existsb (Z.eqb s) (range lo hi) = true).
    { apply existsb_exists. exists s. split; [exact Hin | apply Z.eqb_refl]. }
    congruence.
Qed.

(** X15: get_slot_fees gives an entry to exactly the selected durations,
    and the entry of a duration d gives to exactly the slots 1..d the fee
    and block values of their widgets. *)
Theorem get_slot_fees_lookup :
  forall fee_input block_input durations d s,
    getitem (get_slot_fees fee_input block_input durations) d =
      (if existsb (Z.eqb d) durations
       then Ok (slot_row fee_input block_input d)
       else Raise KeyError) /\
    getitem (slot_row fee_input block_input d) s =
      (if (1 <=? s) && (s <=? d)
       then Ok {| fee := fee_input d s; blocked := block_input d s |}
       else Raise KeyError).
Proof.
  intros fee_input block_input durations d s. split.
  - unfold get_slot_fees.
    rewrite (getitem_fold_setitem (slot_row fee_input block_input)).
    reflexivity.
  - unfold slot_row.
    rewrite (getitem_fold_setitem
               (fun s => {| fee := fee_input d s; blocked := block_input d s |})).
    rewrite existsb_range. simpl getitem.
    replace (s <? d + 1) with (s <=? d); [reflexivity|].
    destruct (Z.leb_spec s d), (Z.ltb_spec s (d + 1)); try reflexivity; lia.
Qed.

Lemma slab_alloc_of_catalog slab_input d :
  slab_alloc_of slab_input d = map (fun s => (s, slab_input d s)) slabs.
Proof. reflexivity. Qed.

Lemma slab_steps slab_input (l : list Z) :
  forall sm0 w0 sm w,
    for_each l (slab_step slab_input) (sm0, w0) = Ok (sm, w) ->
    (forall d, getitem sm d =
       if existsb (Z.eqb d) l then Ok (slab_alloc_of slab_input d)
       else getitem sm0 d) /\
    (forall d, In d w <->
       In d w0 \/
       (In d l /\
        validate_slab_total (slab_alloc_of slab_input d) = Ok false)).
Proof.
  induction l as [|a l IH]; simpl; intros sm0 w0 sm w H.
  - inversion H; subst. split; [reflexivity|]. intros d. tauto.
  - bind_inv H st1 E1. destruct st1 as [sm1 w1].
    unfold slab_step in E1. bind_inv E1 ok Eok. cbn [fst snd] in E1.
    inversion E1; subst sm1 w1; clear E1.
    destruct (IH _ _ _ _ H) as [Hsm Hw]. split.
    + intros d. rewrite Hsm.
      destruct (Z.eqb_spec d a) as [->|Hne]; simpl.
      * destruct (existsb (Z.eqb a) l); [reflexivity|].
        apply getitem_setitem_eq.
      * destruct (existsb (Z.eqb d) l); [reflexivity|].
        apply getitem_setitem_neq. exact Hne.
    + intros d. rewrite Hw. destruct ok.
      * split.
        -- intros [Hd|[Hd Hv]]; [left; exact Hd | right; auto].
        -- intros [Hd|[[<-|Hd] Hv]]; [left; exact Hd | congruence
                                      | right; auto].
      * rewrite in_app_iff. simpl. split.
        -- intros [[Hd|[<-|[]]]|[Hd Hv]]; auto.
        -- intros [Hd|[[<-|Hd] Hv]]; auto.
Qed.

(** X16: when get_durations_and_slabs returns, it returns the selected
    durations unchanged; slab_map has an entry for exactly the selected
    durations, the entry of d holding the eight catalog slabs in catalog
    order with the values of their widgets, whether or not they add up to
    100; and a warning is shown for exactly the selected durations whose
    allocation validate_slab_total rejects. *)
Theorem get_durations_and_slabs_result :
  forall slab_input durations ds slab_map warned,
    get_durations_and_slabs slab_input durations = Ok (ds, slab_map, warned) ->
    ds = durations /\
    (forall d, getitem slab_map d =
       if existsb (Z.eqb d) durations
       then Ok (map (fun s => (s, slab_input d s)) slabs)
       else Raise KeyError) /\
    (forall d, In d warned <->
       In d durations /\
       validate_slab_total (map (fun s => (s, slab_input d s)) slabs)
         = Ok false).
Proof.
  intros slab_input durations ds slab_map warned H.
  unfold get_durations_and_slabs in H. bind_inv H st E.
  destruct st as [sm w]. cbn [fst snd] in H.
  inversion H; subst ds slab_map warned; clear H.
  destruct (slab_steps _ _ _ _ _ _ E) as [Hsm Hw].
  split; [reflexivity|]. split.
  - intros d. rewrite Hsm. rewrite slab_alloc_of_catalog. reflexivity.
  - intros d. rewrite Hw. rewrite slab_alloc_of_catalog. simpl. tauto.
Qed.

Lemma get_durations_and_slabs_result_witness :
  get_durations_and_slabs example_slab_input [3; 4] =
    Ok ([3; 4],
        [(3, map (fun s => (s, example_slab_input 3 s)) slabs);
         (4, map (fun s => (s, example_slab_input 4 s)) slabs)],
        []) /\
  [3; 4] = [3; 4] /\
  (forall d,
     getitem [(3, map (fun s => (s, example_slab_input 3 s)) slabs);
              (4, map (fun s => (s, example_slab_input 4 s)) slabs)] d =
     if existsb (Z.eqb d) [3; 4]
     then Ok (map (fun s => (s, example_slab_input d s)) slabs)
     else Raise KeyError) /\
  (forall d, In d [] <->
     In d [3; 4] /\
     validate_slab_total (map (fun s => (s, example_slab_input d s)) slabs)
       = Ok false).
Proof.
  split; [vm_compute; reflexivity|].
  apply (get_durations_and_slabs_result example_slab_input [3; 4]).
  vm_compute; reflexivity.
Defined.

Lemma validate_slab_total_floats (slab_alloc : dict pynum) :
  Forall (fun kv => is_float (snd kv) = true) slab_alloc ->
  exists b, validate_slab_total slab_alloc = Ok b.
Proof.
  intros Hf.
  destruct (py_sum_from_floats (map snd slab_alloc)) with (acc := PInt 0)
    as (s & Es & Hs); [rewrite Forall_map; exact Hf | left; reflexivity |].
  unfold validate_slab_total, py_sum. rewrite Es. cbn [bind].
  destruct Hs as [->|Hs]; [eexists; reflexivity|].
  destruct s as [z|f]; [discriminate|].
  unfold py_sub, fsub, float_binop. cbn [to_float bind].
  rewrite float_of_int_100. cbn [bind]. eexists; reflexivity.
Qed.

(** X17: when every slab widget holds a float, as a number_input with
    float bounds does, get_durations_and_slabs never raises: it returns a
    slab map for every selection. *)
Theorem get_durations_and_slabs_defined :
  forall slab_input durations,
    (forall d s, is_float (slab_input d s) = true) ->
    exists slab_map warned,
      get_durations_and_slabs slab_input durations
        = Ok (durations, slab_map, warned).
Proof.
  intros slab_input durations Hf. unfold get_durations_and_slabs.
  assert (H : forall l st, exists st',
            for_each l (slab_step slab_input) st = Ok st').
  { induction l as [|a l IH]; intros st; simpl; [eexists; reflexivity|].
    unfold slab_step at 1.
    destruct (validate_slab_total_floats (slab_alloc_of slab_input a))
      as (b & Eb).
    { rewrite slab_alloc_of_catalog. rewrite Forall_map.
      apply Forall_forall. intros s _. apply Hf. }
    rewrite Eb. cbn [bind]. apply IH. }
  destruct (H durations ([], [])) as ([sm w] & E).
  rewrite E. cbn [bind fst snd]. exists sm, w. reflexivity.
Qed.

Lemma get_durations_and_slabs_defined_witness :
  (forall d s, is_float (example_slab_input d s) = true) /\
  exists slab_map warned,
    get_durations_and_slabs example_slab_input [3; 4]
      = Ok ([3; 4], slab_map, warned).
Proof.
  assert (Hf : forall d s, is_float (example_slab_input d s) = true).
  { intros d s. unfold example_slab_input. destruct (s =? 1000); reflexivity. }
  split; [exact Hf|].
  apply (get_durations_and_slabs_defined example_slab_input [3; 4]).
  exact Hf.
Defined.

Lemma existsb_In (d : Z) (l : list Z) :
  In d l -> existsb (Z.eqb d) l = true.
Proof.
  intros H. apply existsb_exists. exists d. split; [exact H | apply Z.eqb_refl].
Qed.

(** X18: the maps built by get_durations_and_slabs and get_slot_fees have
    every key the engine looks up, so run_forecast on them never raises
    KeyError: whatever the configuration, it returns a table or raises an
    exception of the arithmetic. *)
Theorem run_forecast_on_built_maps :
  forall slab_input fee_input block_input durations ds slab_map warned,
    get_durations_and_slabs slab_input durations = Ok (ds, slab_map, warned) ->
    keyed ds slab_map (get_slot_fees fee_input block_input ds) /\
    forall cfg e,
      run_forecast cfg ds slab_map (get_slot_fees fee_input block_input ds)
        = Raise e ->
      arithmetic_error e.
Proof.
  intros slab_input fee_input block_input durations ds slab_map warned H.
  assert (Hk : keyed ds slab_map (get_slot_fees fee_input block_input ds)).
  { unfold get_durations_and_slabs in H. bind_inv H st E.
    destruct st as [sm w]. cbn [fst snd] in H.
    inversion H; subst ds slab_map warned; clear H.
    destruct (slab_steps _ _ _ _ _ _ E) as [Hsm _].
    intros d Hd. split.
    - eexists. rewrite Hsm, (existsb_In _ _ Hd). reflexivity.
    - exists (slot_row fee_input block_input d). split.
      + unfold get_slot_fees.
        rewrite (getitem_fold_setitem (slot_row fee_input block_input)).
        rewrite (existsb_In _ _ Hd). reflexivity.
      + intros slot Hslot. eexists. unfold slot_row.
        rewrite (getitem_fold_setitem
                   (fun s => {| fee := fee_input d s;
                                blocked := block_input d s |})).
        rewrite existsb_range.
        replace ((1 <=? slot) && (slot <? d + 1)) with true; [reflexivity|].
        symmetry. apply andb_true_iff.
        split; [apply Z.leb_le | apply Z.ltb_lt]; lia. }
  split; [exact Hk|].
  intros cfg.
  apply (run_forecast_raises arithmetic_error);
    [left; reflexivity | right; reflexivity | left; exact Hk].
Qed.

Lemma run_forecast_on_built_maps_witness :
  get_durations_and_slabs example_slab_input [3; 4] =
    Ok ([3; 4],
        [(3, map (fun s => (s, example_slab_input 3 s)) slabs);
         (4, map (fun s => (s, example_slab_input 4 s)) slabs)],
        []) /\
  keyed [3; 4]
    [(3, map (fun s => (s, example_slab_input 3 s)) slabs);
     (4, map (fun s => (s, example_slab_input 4 s)) slabs)]
    (get_slot_fees example_fee_input example_block_input [3; 4]) /\
  forall cfg e,
    run_forecast cfg [3; 4]
      [(3, map (fun s => (s, example_slab_input 3 s)) slabs);
       (4, map (fun s => (s, example_slab_input 4 s)) slabs)]
      (get_slot_fees example_fee_input example_block_input [3; 4])
      = Raise e ->
    arithmetic_error e.
Proof.
  split; [vm_compute; reflexivity|].
  apply (run_forecast_on_built_maps example_slab_input example_fee_input
           example_block_input [3; 4] [3; 4] _ []).
  vm_compute; reflexivity.
Defined.

(** ** The application on untouched slab widgets *)

(** X19: when every slab widget holds a percentage <= 0, as all of them do
    before the user edits them (their initial value is 0.0), and at least
    one duration is selected, the application flow on the maps the builders
    return raises KeyError as soon as run_forecast itself returns: the
    forecast has no row, and the summaries fail on it. *)
Theorem main_on_untouched_slabs :
  forall cfg slab_input fee_input block_input durations ds slab_map warned df,
    durations <> [] ->
    (forall d s, py_le (slab_input d s) (PInt 0) = true) ->
    get_durations_and_slabs slab_input durations = Ok (ds, slab_map, warned) ->
    run_forecast cfg ds slab_map (get_slot_fees fee_input block_input ds)
      = Ok df ->
    rows df = [] /\
    main cfg ds slab_map (get_slot_fees fee_input block_input ds)
      = Raise KeyError.
Proof.
  intros cfg slab_input fee_input block_input durations ds slab_map warned df
         Hne Hle Hget Hrun.
  assert (Hnone : no_positive_slab ds slab_map).
  { unfold get_durations_and_slabs in Hget. bind_inv Hget st E.
    destruct st as [sm w]. cbn [fst snd] in Hget.
    inversion Hget; subst ds slab_map warned; clear Hget.
    destruct (slab_steps _ _ _ _ _ _ E) as [Hsm _].
    intros d items slab pct Hd Hitems Hin.
    rewrite Hsm, (existsb_In _ _ Hd) in Hitems.
    inversion Hitems; subst items; clear Hitems.
    rewrite slab_alloc_of_catalog in Hin. apply in_map_iff in Hin.
    destruct Hin as (s & Hs & _). inversion Hs; subst. apply Hle. }
  assert (Hrows : rows df = [])
    by (eapply forecast_rows_empty; [exact Hrun | left; exact Hnone]).
  split; [exact Hrows|].
  assert (Hds : ds = durations).
  { unfold get_durations_and_slabs in Hget. bind_inv Hget st E.
    inversion Hget; reflexivity. }
  subst ds. destruct durations as [|d0 rest]; [congruence|].
  unfold main. rewrite Hrun. cbn [bind].
  rewrite (run_forecast_table _ _ _ _ _ Hrun), Hrows. reflexivity.
Qed.

Lemma main_on_untouched_slabs_witness :
  [3; 4] <> [] /\
  (forall d s : Z, py_le (PFloat (S754_zero false)) (PInt 0) = true) /\
  get_durations_and_slabs (fun _ _ => PFloat (S754_zero false)) [3; 4] =
    Ok ([3; 4],
        [(3, map (fun s => (s, PFloat (S754_zero false))) slabs);
         (4, map (fun s => (s, PFloat (S754_zero false))) slabs)],
        [3; 4]) /\
  run_forecast scenario_config [3; 4]
    [(3, map (fun s => (s, PFloat (S754_zero false))) slabs);
     (4, map (fun s => (s, PFloat (S754_zero false))) slabs)]
    (get_slot_fees example_fee_input example_block_input [3; 4])
    = Ok (pd_DataFrame []) /\
  rows (pd_DataFrame []) = [] /\
  main scenario_config [3; 4]
    [(3, map (fun s => (s, PFloat (S754_zero false))) slabs);
     (4, map (fun s => (s, PFloat (S754_zero false))) slabs)]
    (get_slot_fees example_fee_input example_block_input [3; 4])
    = Raise KeyError.
Proof.
  split; [discriminate|].
  split; [intros; reflexivity|].
  split; [vm_compute; reflexivity|].
  split; [vm_compute; reflexivity|].
  apply (main_on_untouched_slabs scenario_config
           (fun _ _ => PFloat (S754_zero false))
           example_fee_input example_block_input [3; 4] [3; 4] _ [3; 4]
           (pd_DataFrame [])).
  - discriminate.
  - intros; reflexivity.
  - vm_compute; reflexivity.
  - vm_compute; reflexivity.
Defined.

(** * The tolerance of validate_slab_total *)










